(** * Geographic analysis of the coronavirus tracker API

    A shallow embedding of the geographic core of the repository:

    - [app/utils/geo.py]                    (module [Geo])
    - [app/utils/analysis.py]               (module [Analysis])
    - [app/utils/visualization.py]          (module [Visualization])
    - [app/services/geographic_analysis.py] (module [Service])
    - the geographic routes of [app/routers/v2.py] (module [RouterV2])
    - [app/routers/geographic.py]           (module [RouterGeographic])

    Conventions.  Python [int] is [Z].  A Python [float] that is data
    (a coordinate, a radius) is a rational [Q]: every finite binary64
    value is one.  Arithmetic on floats is exact here: sums and
    quotients are taken in [Q], trigonometry in [R].  Rounding is
    outside the model, and so is every failure that only rounding can
    cause (the square root of a term that rounds above 1, a mean that
    leaves the range of its inputs by an ulp).  A Python [dict] is a
    [gmap].  A call that can raise returns a [Result]. *)

From Stdlib Require Import ZArith QArith Qabs Reals Lra Lia String Ascii List.
From stdpp Require Import gmap strings list pretty.

Set Default Proof Using "Type".

(** ** Outcomes of a call *)

Inductive Exception :=
  | ValueError
  | KeyError
  | AttributeError
  | ZeroDivisionError
  | OverflowError
  | HTTPException (status_code : Z).

Inductive Result (A : Type) :=
  | Return (a : A)
  | Raise (e : Exception).
Arguments Return {A} a.
Arguments Raise {A} e.

#[global] Instance Result_bind : MBind Result := fun A B k m =>
  match m with
  | Return a => k a
  | Raise e => Raise e
  end.

Fixpoint mapM {A B} (f : A -> Result B) (l : list A) : Result (list B) :=
  match l with
  | [] => Return []
  | x :: l' => y ← f x; ys ← mapM f l'; Return (y :: ys)
  end.

Fixpoint filterM {A} (p : A -> Result bool) (l : list A) : Result (list A) :=
  match l with
  | [] => Return []
  | x :: l' => b ← p x; ys ← filterM p l'; Return (if (b : bool) then x :: ys else ys)
  end.

(** Reading an attribute that the object may lack. *)
Definition getattr {A} (o : option A) : Result A :=
  match o with Some a => Return a | None => Raise AttributeError end.

#[global] Instance Rle_decision (x y : R) : Decision (x <= y)%R := Rle_dec x y.

(** ** The location objects of [app/utils] (built outside the sources
    at hand; the fields the utilities read) *)

Module Models.
Record Coordinates := { latitude : Q; longitude : Q }.

(** [latest] without a [confirmed] attribute has [None] there. *)
Record Latest := { confirmed : option Z }.

Record Timeline := { timeline : gmap string Z }.

Record Timelines := { timelines_confirmed : option Timeline }.

(** An attribute the object may lack is an [option]. *)
Record Location := {
  id : Z;
  coordinates : Coordinates;
  latest : option Latest;
  timelines : option Timelines
}.
End Models.

(** ** Python's [math] module over the reals *)

Module PyMath.
Local Open Scope R_scope.

(** [math.radians] *)
Definition radians (x : R) : R := x * (PI / 180).

(** [math.sqrt] raises [ValueError] on a negative argument. *)
Definition sqrt (x : R) : Result R :=
  if Rlt_dec x 0 then Raise ValueError else Return (R_sqrt.sqrt x).

(** [math.atan2 y x]: the angle of the point [(x, y)], in (-PI, PI]. *)
Definition atan2 (y x : R) : R :=
  if Rlt_dec 0 x then atan (y / x)
  else if Rlt_dec x 0 then
    if Rle_dec 0 y then atan (y / x) + PI else atan (y / x) - PI
  else if Rlt_dec 0 y then PI / 2
  else if Rlt_dec y 0 then - (PI / 2)
  else 0.
End PyMath.

(** ** [sklearn.cluster.DBSCAN]

    The library is not part of the repository.  This is its algorithm as
    the two callers use it: [within x y] says that the distance between
    two samples, in the metric the caller chose, is at most [eps].  The
    library checks its input before the algorithm runs and raises on
    [eps <= 0], on [min_samples < 1] and on an array without samples;
    the algorithm below is what it computes once the checks have
    passed. *)

Module Sklearn.
Section DBSCAN.
Context {X : Type} (within : X -> X -> bool) (min_samples : Z).

(** Indices [j] with [p (xs[j])], counted from [i]. *)
Fixpoint indices_from (i : nat) (p : X -> bool) (xs : list X) : list nat :=
  match xs with
  | [] => []
  | x :: xs' =>
      if p x then i :: indices_from (S i) p xs' else indices_from (S i) p xs'
  end.

(** The eps-neighbourhood of every sample (a sample within [eps] of
    itself is its own neighbour). *)
Definition radius_neighbors (xs : list X) : list (list nat) :=
  map (fun x => indices_from 0 (within x) xs) xs.

Definition core_samples (neighborhoods : list (list nat)) : list bool :=
  map (fun nb => (min_samples <=? Z.of_nat (length nb))%Z) neighborhoods.

Definition unlabelled (labels : list Z) (v : nat) : bool :=
  bool_decide (labels !! v = Some (-1)%Z).

(** The depth-first walk from sample [i]; [stack] has its top first. *)
Fixpoint expand (fuel : nat) (is_core : list bool)
    (neighborhoods : list (list nat)) (label_num : Z)
    (i : nat) (stack : list nat) (labels : list Z) : list Z :=
  match fuel with
  | O => labels
  | S fuel' =>
      let '(labels, stack) :=
        if unlabelled labels i then
          let labels := <[i := label_num]> labels in
          if default false (is_core !! i) then
            let neighb := default [] (neighborhoods !! i) in
            (labels, rev (filter (fun v => unlabelled labels v = true) neighb) ++ stack)
          else (labels, stack)
        else (labels, stack) in
      match stack with
      | [] => labels
      | v :: stack' =>
          expand fuel' is_core neighborhoods label_num v stack' labels
      end
  end.

Fixpoint dbscan_inner (fuel : nat) (is_core : list bool)
    (neighborhoods : list (list nat)) (label_num : Z)
    (todo : list nat) (labels : list Z) : list Z :=
  match todo with
  | [] => labels
  | i :: todo' =>
      if negb (unlabelled labels i) || negb (default false (is_core !! i)) then
        dbscan_inner fuel is_core neighborhoods label_num todo' labels
      else
        dbscan_inner fuel is_core neighborhoods (label_num + 1) todo'
          (expand fuel is_core neighborhoods label_num i [] labels)
  end.

Definition fit_predict_fuel (fuel : nat) (xs : list X) : list Z :=
  let n := length xs in
  let neighborhoods := radius_neighbors xs in
  let is_core := core_samples neighborhoods in
  dbscan_inner fuel is_core neighborhoods 0 (seq 0 n) (replicate n (-1)%Z).

(** [DBSCAN(eps, min_samples, metric).fit_predict(xs)]: one label per
    sample, [-1] for noise.  A walk takes at most [n * (n + 1)] steps
    (see [fit_predict_fuel_enough]). *)
Definition fit_predict (xs : list X) : list Z :=
  fit_predict_fuel (S (length xs * S (length xs))) xs.

(** The number of samples without a label yet. *)
Definition pending (labels : list Z) : nat :=
  length (filter (fun l => l = (-1)%Z) labels).
End DBSCAN.

(** The checks that [fit_predict] makes before the algorithm runs: a
    positive [eps], a [min_samples] of at least 1, and at least one
    sample.  A failed check is a [ValueError]. *)
Definition check_input (eps : Q) (min_samples : Z) (n_samples : nat)
    : Result unit :=
  if Qle_bool eps 0 || (min_samples <? 1)%Z || (n_samples =? 0)%nat
  then Raise ValueError
  else Return tt.

(** [metric='haversine']: the great-circle angle between two rows
    [(lat, lon)], which the metric reads as radians. *)
Definition haversine_metric (x y : R * R) : R :=
  (2 * asin (sqrt ((sin (/ 2 * (x.1 - y.1))) ^ 2
                   + cos x.1 * cos y.1 * (sin (/ 2 * (x.2 - y.2))) ^ 2)))%R.
End Sklearn.

(** ** Python's [datetime], as far as the code uses it *)

Module Datetime.
Local Open Scope Z_scope.

(** A naive [datetime]: the proleptic Gregorian day number and the
    microsecond of the day. *)
Record datetime := { day : Z; usec : Z }.

Definition date (t : datetime) : Z := day t.

Definition leb (a b : datetime) : bool :=
  (day a <? day b) || ((day a =? day b) && (usec a <=? usec b)).

(** [t - timedelta(days=n)]: [timedelta] takes at most 999999999 days
    and raises [OverflowError] beyond.  (The range of the timestamp
    type itself is not modelled.) *)
Definition minus_days (t : datetime) (n : Z) : Result datetime :=
  if 999999999 <? Z.abs n then Raise OverflowError
  else Return {| day := day t - n; usec := usec t |}.

Definition days_from_civil (y m d : Z) : Z :=
  let y := if m <=? 2 then y - 1 else y in
  let era := y / 400 in
  let yoe := y - era * 400 in
  let doy := (153 * (if 2 <? m then m - 3 else m + 9) + 2) / 5 + d - 1 in
  let doe := yoe * 365 + yoe / 4 - yoe / 100 + doy in
  era * 146097 + doe - 719468.

Definition civil_from_days (z : Z) : Z * Z * Z :=
  let z := z + 719468 in
  let era := z / 146097 in
  let doe := z - era * 146097 in
  let yoe := (doe - doe / 1460 + doe / 36524 - doe / 146096) / 365 in
  let doy := doe - (365 * yoe + yoe / 4 - yoe / 100) in
  let mp := (5 * doy + 2) / 153 in
  let d := doy - (153 * mp + 2) / 5 + 1 in
  let m := if mp <? 10 then mp + 3 else mp - 9 in
  ((if m <=? 2 then yoe + era * 400 + 1 else yoe + era * 400), m, d).

Definition digit (c : ascii) : option Z :=
  let n := Z.of_N (N_of_ascii c) in
  if (48 <=? n) && (n <=? 57) then Some (n - 48) else None.

Fixpoint number_from (acc : Z) (s : string) : option Z :=
  match s with
  | EmptyString => Some acc
  | String c s' =>
      match digit c with
      | Some d => number_from (acc * 10 + d) s'
      | None => None
      end
  end.

(** The decimal number written in [len] characters of [s] from [pos]. *)
Definition field (pos len : nat) (s : string) : option Z :=
  let f := substring pos len s in
  if (String.length f =? len)%nat then number_from 0 f else None.

Definition is_char (pos : nat) (c : ascii) (s : string) : bool :=
  bool_decide (String.get pos s = Some c).

Definition pad (width : nat) (n : Z) : string :=
  let digits := pretty (Z.to_N n) in
  String.concat "" (replicate (width - String.length digits) "0") +:+ digits.

(** [(datetime.fromisoformat(s) - timedelta(days=days)).isoformat()] for
    the layouts [isoformat] itself writes for a naive [datetime]:
    [YYYY-MM-DD], [YYYY-MM-DD?HH:MM:SS] and
    [YYYY-MM-DD?HH:MM:SS.ffffff].  In these layouts a field out of range
    is a [ValueError]; more than 999999999 days, or a result outside the
    years 1..9999, is an [OverflowError].  A string in another layout is
    outside this model, which answers [ValueError] for it (the library
    parses some of them, depending on its version); the properties
    below take the date arithmetic as a parameter and use this function
    on the three layouts only. *)
Definition iso_minus_days (s : string) (days : Z) : Result string :=
  let len := String.length s in
  let shape :=
    is_char 4 "-" s && is_char 7 "-" s &&
    ((len =? 10)%nat
     || ((len =? 19)%nat && is_char 13 ":" s && is_char 16 ":" s)
     || ((len =? 26)%nat && is_char 13 ":" s && is_char 16 ":" s
         && is_char 19 "." s)) in
  let time (pos width : nat) :=
    if (len =? 10)%nat then Some 0 else field pos width s in
  let frac := if (len =? 26)%nat then field 20 6 s else Some 0 in
  match shape, field 0 4 s, field 5 2 s, field 8 2 s,
        time 11%nat 2%nat, time 14%nat 2%nat, time 17%nat 2%nat, frac with
  | true, Some y, Some m, Some d, Some hh, Some mm, Some ss, Some us =>
      let '(y', m', d') := civil_from_days (days_from_civil y m d) in
      if negb ((1 <=? y) && (y' =? y) && (m' =? m) && (d' =? d)
               && (hh <? 24) && (mm <? 60) && (ss <? 60))
      then Raise ValueError
      else if 999999999 <? Z.abs days then Raise OverflowError
      else
        let '(y2, m2, d2) := civil_from_days (days_from_civil y m d - days) in
        if negb ((1 <=? y2) && (y2 <=? 9999)) then Raise OverflowError
        else
          Return (pad 4 y2 +:+ "-" +:+ pad 2 m2 +:+ "-" +:+ pad 2 d2 +:+ "T"
                  +:+ pad 2 hh +:+ ":" +:+ pad 2 mm +:+ ":" +:+ pad 2 ss
                  +:+ (if us =? 0 then "" else "." +:+ pad 6 us))
  | _, _, _, _, _, _, _, _ => Raise ValueError
  end.
End Datetime.

(** ** [app/utils/geo.py] *)

Module Geo.
Import Models.

Definition haversine_distance (lat1 lon1 lat2 lon2 : R) : Result R :=
  (let R_ := 6371 in
   let lat1 := PyMath.radians lat1 in
   let lon1 := PyMath.radians lon1 in
   let lat2 := PyMath.radians lat2 in
   let lon2 := PyMath.radians lon2 in
   let dlat := lat2 - lat1 in
   let dlon := lon2 - lon1 in
   let a := (sin (dlat / 2)) ^ 2 + cos lat1 * cos lat2 * (sin (dlon / 2)) ^ 2 in
   sa ← PyMath.sqrt a;
   sb ← PyMath.sqrt (1 - a);
   let c := 2 * PyMath.atan2 sa sb in
   Return (R_ * c))%R.

Definition dbscan_cluster (locations : list Location) (eps_km : Q)
    (min_samples : Z) : Result (list Z) :=
  let coords :=
    map (fun loc => (Q2R (latitude (coordinates loc)),
                     Q2R (longitude (coordinates loc)))) locations in
  let n := length coords in
  distances ← mapM (fun ci =>
                mapM (fun cj => haversine_distance ci.1 ci.2 cj.1 cj.2) coords)
              coords;
  _ ← Sklearn.check_input eps_km min_samples n;
  let within (i j : nat) :=
    bool_decide (default 0%R (distances !! i ≫= (.!! j)) <= Q2R eps_km)%R in
  Return (Sklearn.fit_predict within min_samples (seq 0 n)).
End Geo.

(** ** Grouping labelled items into a [dict] of lists *)

Section Grouping.
Context {A : Type}.

(** [if label not in clusters: clusters[label] = []] and then
    [clusters[label].append(item)] *)
Definition append_to (label : Z) (item : A) (clusters : gmap Z (list A))
    : gmap Z (list A) :=
  let clusters :=
    if decide (clusters !! label = None) then <[label := []]> clusters
    else clusters in
  alter (fun l => l ++ [item]) label clusters.

Fixpoint group_loop (pairs : list (Z * A)) (clusters : gmap Z (list A))
    : gmap Z (list A) :=
  match pairs with
  | [] => clusters
  | (label, item) :: rest => group_loop rest (append_to label item clusters)
  end.

(** The items that carry [label], in input order. *)
Definition members (label : Z) (pairs : list (Z * A)) : list A :=
  (filter (fun p => p.1 = label) pairs).*2.

(** All buckets of a mapping, one after the other. *)
Definition all_members (clusters : gmap Z (list A)) : list A :=
  mjoin (map_to_list clusters).*2.
End Grouping.

(** ** [app/utils/analysis.py] *)

Module Analysis.
Import Models.

Record SpreadVector := {
  start_date : string;
  end_date : string;
  start_cases : Z;
  end_cases : Z;
  total_increase : Z;
  daily_increase : Q;
  location_id : Z
}.

(** [s.rstrip('Z')] *)
Fixpoint rstrip_Z (s : string) : string :=
  match s with
  | EmptyString => EmptyString
  | String c s' =>
      match rstrip_Z s' with
      | EmptyString => if Ascii.eqb c "Z" then EmptyString else String c EmptyString
      | t => String c t
      end
  end.

Fixpoint insert_sorted (x : string) (l : list string) : list string :=
  match l with
  | [] => [x]
  | y :: l' => if String.leb x y then x :: l else y :: insert_sorted x l'
  end.

(** [sorted(keys)]: strings in code-point order. *)
Definition sorted (keys : list string) : list string :=
  foldr insert_sorted [] keys.

(** Every element is below all later ones. *)
Definition ascending (l : list string) : Prop :=
  ∀ i j x y, (i <= j)%nat -> l !! i = Some x -> l !! j = Some y ->
             String.leb x y = true.

(** The least magnitude that rounds beyond the largest float: halfway
    between [2^1024 - 2^971] and [2^1024]. *)
Definition float_overflow : Z := 2 ^ 1024 - 2 ^ 970.

(** [int / int]: true division.  The quotient is rounded to the nearest
    float, and a quotient that rounds beyond the largest float is an
    [OverflowError]; the quotient itself is kept exact here. *)
Definition truediv (a b : Z) : Result Q :=
  if decide (b = 0%Z) then Raise ZeroDivisionError
  else if (float_overflow * Z.abs b <=? Z.abs a)%Z then Raise OverflowError
  else Return (inject_Z a / inject_Z b)%Q.

(** [try: ... except (AttributeError, KeyError, ValueError): return None] *)
Definition try_except {A} (body : Result (option A)) : Result (option A) :=
  match body with
  | Raise AttributeError | Raise KeyError | Raise ValueError => Return None
  | r => r
  end.

Definition getitem (d : gmap string Z) (k : string) : Result Z :=
  match d !! k with Some v => Return v | None => Raise KeyError end.

(** [location.timelines.confirmed.timeline], when every attribute on
    the way is there. *)
Definition series (location : Location) : option (gmap string Z) :=
  tls ← timelines location; conf ← timelines_confirmed tls; Some (timeline conf).

(** [k] is the latest timestamp of the series: a key that no key
    follows in the order of [sorted]. *)
Definition latest_key (tl : gmap string Z) (k : string) : Prop :=
  is_Some (tl !! k) ∧ ∀ k', is_Some (tl !! k') → String.leb k' k = true.

Section with_datetime.
(** [shift s days] is
    [(datetime.fromisoformat(s) - timedelta(days=days)).isoformat()]. *)
Context (shift : string -> Z -> Result string).

Definition calculate_spread_vector (location : Location) (days : Z)
    : Result (option SpreadVector) :=
  try_except (
    tls ← getattr (timelines location);
    conf ← getattr (timelines_confirmed tls);
    let timeline := timeline conf in
    let dates := sorted (map_to_list timeline).*1 in
    match last dates with
    | None => Return None
    | Some end_date =>
        shifted ← shift (rstrip_Z end_date) days;
        let start_date := shifted +:+ "Z" in
        if decide (timeline !! start_date = None) then Return None
        else
          start_cases ← getitem timeline start_date;
          end_cases ← getitem timeline end_date;
          let total_increase := (end_cases - start_cases)%Z in
          daily_increase ← truediv total_increase days;
          Return (Some {|
            start_date := start_date;
            end_date := end_date;
            start_cases := start_cases;
            end_cases := end_cases;
            total_increase := total_increase;
            daily_increase := daily_increase;
            location_id := id location
          |})
    end).
End with_datetime.
End Analysis.

(** ** [folium]: what a map is made of *)

Module Folium.
(** [plugins.HeatMap(data, ...)]; an option left out is [None]. *)
Record HeatMap := {
  data : list (Q * Q * Z);
  min_opacity : option Q;
  radius : option Z;
  blur : option Z;
  max_zoom : option Z
}.

(** [folium.Map(location, zoom_start)] and the layers added to it. *)
Record Map := {
  location : Q * Q;
  zoom_start : Z;
  layers : list HeatMap
}.

Definition add_to (layer : HeatMap) (m : Map) : Map :=
  {| location := location m; zoom_start := zoom_start m;
     layers := layers m ++ [layer] |}.
End Folium.

(** [sum(xs)] over floats. *)
Definition Qsum (xs : list Q) : Q := foldl Qplus 0%Q xs.

(** ** [app/utils/visualization.py] *)

Module Visualization.
Import Models Folium.

(** [x / len(locations)] *)
Definition div_len (x : Q) (n : nat) : Result Q :=
  if decide (n = 0%nat) then Raise ZeroDivisionError
  else Return (x / inject_Z (Z.of_nat n))%Q.

Definition create_heatmap (locations : list Location)
    (center_lat center_lon : option Q) : Result Map :=
  center ←
    match center_lat, center_lon with
    | Some lat, Some lon => Return (lat, lon)
    | _, _ =>
        lat ← div_len (Qsum (map (fun loc => latitude (coordinates loc)) locations))
                      (length locations);
        lon ← div_len (Qsum (map (fun loc => longitude (coordinates loc)) locations))
                      (length locations);
        Return (lat, lon)
    end;
  let m := {| location := center; zoom_start := 4; layers := [] |} in
  let heat_data :=
    omap (fun loc =>
            l ← latest loc;
            c ← confirmed l;
            Some (latitude (coordinates loc), longitude (coordinates loc), c))
         locations in
  Return (add_to {| data := heat_data; min_opacity := Some 0.4%Q;
                    radius := Some 25%Z; blur := Some 15%Z;
                    max_zoom := Some 1%Z |} m).
End Visualization.

(** ** [pandas]: the series arithmetic the service relies on

    The library is not part of the repository.  A [Series] is its rows
    [(index label, value)] in order; the index is the pair
    [(latitude, longitude)]. *)

Module Pandas.
Inductive Cell :=
  | Num (z : Z)
  | NaN.

Definition Key : Type := Q * Q.

Definition key_eqb (a b : Key) : bool :=
  Qeq_bool a.1 b.1 && Qeq_bool a.2 b.2.

(** The rows of [s] labelled [k]. *)
Definition rows_at {V} (k : Key) (s : list (Key * V)) : list (Key * V) :=
  filter (fun r => key_eqb k r.1 = true) s.

(** [a - b]: rows are matched on their labels; a label on one side only
    gives [NaN]; a label that occurs several times gives one row for
    each match.  The order of the rows is the library's choice (here:
    the rows of [a], then the rows of [b] alone).  The library subtracts
    in int64, or in float64 once a label is missing on one side; the
    difference below is the exact one, which is what both compute for
    counts of magnitude up to [2^52]. *)
Definition sub (a b : list (Key * Z)) : list (Key * Cell) :=
  flat_map (fun r =>
              match rows_at r.1 b with
              | [] => [(r.1, NaN)]
              | matches => map (fun r' => (r.1, Num (r.2 - r'.2))) matches
              end) a
  ++ map (fun r => (r.1, NaN))
       (filter (fun r => rows_at r.1 a = []) b).

(** [value != 0] *)
Definition ne_zero (c : Cell) : bool :=
  match c with
  | Num z => negb (z =? 0)%Z
  | NaN => true
  end.
End Pandas.

(** ** [app/services/geographic_analysis.py] *)

Module Service.
Import Datetime Folium Pandas.

Record GeoLocation := {
  latitude : Q;
  longitude : Q;
  cases : Z;
  timestamp : datetime;
  location_id : string
}.

Record GeographicAnalyzer := {
  eps_km : Q;
  min_samples : Z
}.

(** [GeographicAnalyzer()] *)
Definition default_analyzer : GeographicAnalyzer :=
  {| eps_km := 100; min_samples := 5 |}.

Definition _haversine_distance (self : GeographicAnalyzer)
    (lat1 lon1 lat2 lon2 : R) : R :=
  (let R_ := 6371 in
   let lat1 := PyMath.radians lat1 in
   let lon1 := PyMath.radians lon1 in
   let lat2 := PyMath.radians lat2 in
   let lon2 := PyMath.radians lon2 in
   let dlat := lat2 - lat1 in
   let dlon := lon2 - lon1 in
   let a := (sin (dlat / 2)) ^ 2 + cos lat1 * cos lat2 * (sin (dlon / 2)) ^ 2 in
   let c := 2 * asin (sqrt a) in
   R_ * c)%R.

(** The labels [db.fit_predict(coordinates)] of [identify_clusters], for
    a configuration that the library takes (see [accepted] below). *)
Definition cluster_labels (self : GeographicAnalyzer)
    (locations : list GeoLocation) : list Z :=
  let coordinates :=
    map (fun loc => (Q2R (latitude loc), Q2R (longitude loc))) locations in
  let eps := (eps_km self / 111)%Q in
  Sklearn.fit_predict
    (fun x y => bool_decide (Sklearn.haversine_metric x y <= Q2R eps)%R)
    (min_samples self) coordinates.

Definition identify_clusters (self : GeographicAnalyzer)
    (locations : list GeoLocation) : gmap Z (list GeoLocation) :=
  match locations with
  | [] => ∅
  | _ =>
      let labels := cluster_labels self locations in
      group_loop (zip labels locations) ∅
  end.

(** The loop over [case_changes.index]. *)
Fixpoint vectors_loop (index : list Key) (case_changes : list (Key * Cell))
    (vectors : list (Q * Q * Cell)) : Result (list (Q * Q * Cell)) :=
  match index with
  | [] => Return vectors
  | k :: rest =>
      match rows_at k case_changes with
      | [] => vectors_loop rest case_changes vectors
      | [(_, magnitude)] =>
          if ne_zero magnitude
          then vectors_loop rest case_changes (vectors ++ [(k.1, k.2, magnitude)])
          else vectors_loop rest case_changes vectors
      | _ => Raise ValueError
      end
  end.

Definition latest_timestamp (t : datetime) (ts : list datetime) : datetime :=
  foldl (fun m x => if Datetime.leb m x then x else m) t ts.

Definition cases_on (d : Z) (df : list GeoLocation) : list (Key * Z) :=
  map (fun loc => ((latitude loc, longitude loc), cases loc))
    (filter (fun loc => date (timestamp loc) = d) df).

(** [df['timestamp'].max()]; a frame built from no rows has no such
    column. *)
Definition max_timestamp (df : list GeoLocation) : Result datetime :=
  match df with
  | [] => Raise KeyError
  | row :: rows => Return (latest_timestamp (timestamp row) (map timestamp rows))
  end.

Definition calculate_spread_vectors (self : GeographicAnalyzer)
    (historical_data : list GeoLocation) (days : Z)
    : Result (list (Q * Q * Cell)) :=
  let df := historical_data in
  end_date ← max_timestamp df;
  start_date ← minus_days end_date days;
  let start_cases := cases_on (date start_date) df in
  let end_cases := cases_on (date end_date) df in
  let case_changes := Pandas.sub end_cases start_cases in
  vectors_loop case_changes.*1 case_changes [].

(** [np.mean(xs)] *)
Definition mean (xs : list Q) : Q :=
  (Qsum xs / inject_Z (Z.of_nat (length xs)))%Q.

Definition generate_risk_heatmap (self : GeographicAnalyzer)
    (locations : list GeoLocation) (center : option (Q * Q)) : Result Map :=
  match locations with
  | [] => Raise ValueError
  | _ =>
      let center :=
        match center with
        | None => (mean (map latitude locations), mean (map longitude locations))
        | Some c => c
        end in
      let m := {| location := center; zoom_start := 4; layers := [] |} in
      let heat_data :=
        map (fun loc => (latitude loc, longitude loc, cases loc)) locations in
      Return (add_to {| data := heat_data; min_opacity := None; radius := None;
                        blur := None; max_zoom := None |} m)
  end.

(** A configuration that [DBSCAN] takes: [eps_km] of at least a
    kilometre, so that [eps_km / 111.0] is a positive float, and a
    positive [min_samples] that fits a machine integer. *)
Definition accepted (self : GeographicAnalyzer) : Prop :=
  (1 <= eps_km self)%Q ∧ (1 <= min_samples self < 2 ^ 63)%Z.

(** The two locations have the same coordinates. *)
Definition same_point (a b : GeoLocation) : bool :=
  key_eqb (latitude a, longitude a) (latitude b, longitude b).

(** Two locations are neighbours for [identify_clusters]: the haversine
    metric of their coordinates is at most [eps_km / 111]. *)
Definition neighbours (self : GeographicAnalyzer) (a b : GeoLocation) : bool :=
  bool_decide
    (Sklearn.haversine_metric (Q2R (latitude a), Q2R (longitude a))
                              (Q2R (latitude b), Q2R (longitude b))
     <= Q2R (eps_km self / 111))%R.
End Service.

(** ** [app/routers/v2.py]: the [/clusters] route *)

Module RouterV2.
Import Models.
Section with_serialize.
(** [loc.serialize(timelines=False)] *)
Context {S : Type} (serialize : Location -> S).

Fixpoint group_clusters (pairs : list (Location * Z)) (clusters : gmap Z (list S))
    : gmap Z (list S) :=
  match pairs with
  | [] => clusters
  | (loc, label) :: rest =>
      if (0 <=? label)%Z
      then group_clusters rest (append_to label (serialize loc) clusters)
      else group_clusters rest clusters
  end.

(** [loc.latest.confirmed >= min_cases] *)
Definition has_min_cases (min_cases : Z) (loc : Location) : Result bool :=
  l ← getattr (latest loc);
  c ← getattr (confirmed l);
  Return (min_cases <=? c)%Z.

(** [get_clusters], from the locations the data source returned. *)
Definition get_clusters (all : list Location) (min_cases radius_km : Z)
    : Result (gmap Z (list S)) :=
  locations ← filterM (has_min_cases min_cases) all;
  match locations with
  | [] => Raise (HTTPException 404)
  | _ =>
      labels ← Geo.dbscan_cluster locations (inject_Z radius_km) min_cases;
      Return (group_clusters (zip locations labels) ∅)
  end.
End with_serialize.

(** [loc.latest.confirmed], when both attributes are there. *)
Definition confirmed_count (loc : Location) : option Z :=
  latest loc ≫= confirmed.

(** The location passes the filter of [get_clusters]. *)
Definition qualifies (min_cases : Z) (loc : Location) : bool :=
  match confirmed_count loc with
  | Some c => (min_cases <=? c)%Z
  | None => false
  end.

Section with_source.
(** [loc.serialize(timelines=False)] and the date arithmetic of
    [calculate_spread_vector]. *)
Context {S : Type} (serialize : Location -> S)
        (shift : string -> Z -> Result string).

(** The loop of [get_spread_vectors]: [vectors[loc.id] = {...}] for every
    location with a vector. *)
Fixpoint spread_vectors_loop (locations : list Location) (days : Z)
    (vectors : gmap Z (S * Analysis.SpreadVector))
    : Result (gmap Z (S * Analysis.SpreadVector)) :=
  match locations with
  | [] => Return vectors
  | loc :: rest =>
      vector ← Analysis.calculate_spread_vector shift loc days;
      match vector with
      | Some v =>
          spread_vectors_loop rest days (<[id loc := (serialize loc, v)]> vectors)
      | None => spread_vectors_loop rest days vectors
      end
  end.

(** [get_spread_vectors], from the locations the data source returned. *)
Definition get_spread_vectors (all : list Location) (days : Z)
    : Result (gmap Z (S * Analysis.SpreadVector)) :=
  vectors ← spread_vectors_loop all days ∅;
  if decide (vectors = ∅) then Raise (HTTPException 404) else Return vectors.
End with_source.

(** [get_heatmap], from the locations the data source returned, up to
    the map that is saved. *)
Definition get_heatmap (all : list Location) (center_lat center_lon : option Q)
    : Result Folium.Map :=
  match all with
  | [] => Raise (HTTPException 404)
  | _ => Visualization.create_heatmap all center_lat center_lon
  end.
End RouterV2.

(** ** [app/routers/geographic.py]

    The three routes work on a placeholder: [locations = []]. *)

Module RouterGeographic.
Import Service.

(** [analyzer = GeographicAnalyzer()] *)
Definition analyzer : GeographicAnalyzer := default_analyzer.

(** [try: ... except Exception as e: raise HTTPException(status_code=500)] *)
Definition try_500 {A} (body : Result A) : Result A :=
  match body with
  | Raise _ => Raise (HTTPException 500)
  | r => r
  end.

(** [get_clusters], up to the serialization of the buckets. *)
Definition get_clusters (min_cases : Z) : Result (gmap Z (list GeoLocation)) :=
  try_500 (
    let locations : list GeoLocation := [] in
    let locations :=
      if (0 <? min_cases)%Z
      then filter (fun loc => (min_cases <= cases loc)%Z) locations
      else locations in
    Return (identify_clusters analyzer locations)).

Definition get_spread_vectors (days : Z)
    : Result (list (Q * Q * Pandas.Cell)) :=
  try_500 (
    let historical_data : list GeoLocation := [] in
    calculate_spread_vectors analyzer historical_data days).

(** [get_heatmap], up to the map that is saved. *)
Definition get_heatmap (center_lat center_lon : option Q) : Result Folium.Map :=
  try_500 (
    let locations : list GeoLocation := [] in
    let center :=
      match center_lat, center_lon with
      | Some lat, Some lon => Some (lat, lon)
      | _, _ => None
      end in
    generate_risk_heatmap analyzer locations center).
End RouterGeographic.

(** ** Fixtures of [tests/test_geographic_analysis.py] *)

Module Tests.
Import Service.

(** [GeographicAnalyzer(eps_km=100, min_samples=2)] *)
Definition analyzer : GeographicAnalyzer :=
  {| eps_km := 100; min_samples := 2 |}.

(** [GeoLocation(0.0, 0.0, 100, datetime.now(), "single")] *)
Definition single : GeoLocation :=
  {| latitude := 0; longitude := 0; cases := 100;
     timestamp := {| Datetime.day := 737791; Datetime.usec := 0 |};
     location_id := "single" |}.

(** [GeoLocation(0.0, 0.0, 100, datetime.now(), "point1")] and
    [GeoLocation(0.0, 0.0, 200, datetime.now(), "point2")] *)
Definition point1 : GeoLocation :=
  {| latitude := 0; longitude := 0; cases := 100;
     timestamp := {| Datetime.day := 737791; Datetime.usec := 0 |};
     location_id := "point1" |}.

Definition point2 : GeoLocation :=
  {| latitude := 0; longitude := 0; cases := 200;
     timestamp := {| Datetime.day := 737791; Datetime.usec := 0 |};
     location_id := "point2" |}.

(** A history in the shape of the [historical_data] fixture: two
    locations on the latest day and seven days before; the count of the
    first one grew, the count of the second one did not. *)
Definition history : list GeoLocation :=
  [ {| latitude := 40.7128; longitude := -74.0060; cases := 170;
       timestamp := {| Datetime.day := 737791; Datetime.usec := 0 |};
       location_id := "nyc" |};
    {| latitude := 34.0522; longitude := -118.2437; cases := 200;
       timestamp := {| Datetime.day := 737791; Datetime.usec := 0 |};
       location_id := "la" |};
    {| latitude := 40.7128; longitude := -74.0060; cases := 100;
       timestamp := {| Datetime.day := 737784; Datetime.usec := 0 |};
       location_id := "nyc" |};
    {| latitude := 34.0522; longitude := -118.2437; cases := 200;
       timestamp := {| Datetime.day := 737784; Datetime.usec := 0 |};
       location_id := "la" |} ].
End Tests.

(** ** Fixtures of [tests/test_clustering.py] *)

Module TestsClustering.
Import Models.

(** [MockLocation(1, 100, 200)], with [datetime.now()] fixed. *)
Definition loc : Location :=
  {| id := 1;
     coordinates := {| latitude := 0; longitude := 0 |};
     latest := None;
     timelines := Some {| timelines_confirmed := Some {| timeline :=
       <["2020-03-01T10:20:30.123456Z" := 100%Z]>
         (<["2020-03-15T10:20:30.123456Z" := 200%Z]> ∅) |} |} |}.

(** [MockLocation(lat, lon, cases)] of [test_dbscan_clustering] and
    [test_heatmap_generation]: coordinates and [latest.confirmed]. *)
Definition mock (lat lon : Q) (cases : Z) : Location :=
  {| id := 0;
     coordinates := {| latitude := lat; longitude := lon |};
     latest := Some {| confirmed := Some cases |};
     timelines := None |}.

(** The locations of [test_heatmap_generation]. *)
Definition heatmap_locations : list Location :=
  [mock 0 0 100; mock 1 1 200; mock (-1) (-1) 300].
End TestsClustering.

(** * Properties *)

(** ** The calendar arithmetic on examples *)

Example iso_minus_days_14 :
  Datetime.iso_minus_days "2020-03-15T00:00:00" 14 = Return "2020-03-01T00:00:00".
Proof. vm_compute. reflexivity. Qed.
Example iso_minus_days_leap :
  Datetime.iso_minus_days "2020-03-01T12:30:05.000250" 1 = Return "2020-02-29T12:30:05.000250".
Proof. vm_compute. reflexivity. Qed.
Example iso_minus_days_bad :
  Datetime.iso_minus_days "2020-02-30T00:00:00" 1 = Raise ValueError.
Proof. vm_compute. reflexivity. Qed.
Example iso_minus_days_over :
  Datetime.iso_minus_days "2020-01-01T00:00:00" 800000 = Raise OverflowError.
Proof. vm_compute. reflexivity. Qed.

(** ** Grouping *)

Section GroupingFacts.
Context {A : Type}.
Implicit Types (m : gmap Z (list A)) (pairs : list (Z * A)).

Lemma append_to_insert label item m :
  append_to label item m = <[label := default [] (m !! label) ++ [item]]> m.
Proof.
  unfold append_to. apply map_eq; intros l.
  destruct (decide (l = label)) as [->|Hne].
  - rewrite lookup_alter_eq, lookup_insert_eq.
    case_decide as Hl.
    + now rewrite lookup_insert_eq, Hl.
    + destruct (m !! label); [reflexivity | contradiction].
  - rewrite lookup_alter_ne, lookup_insert_ne by congruence.
    case_decide; [now rewrite lookup_insert_ne by congruence | reflexivity].
Qed.

Lemma members_cons label l x pairs :
  members label ((l, x) :: pairs)
  = if decide (l = label) then x :: members label pairs else members label pairs.
Proof.
  unfold members. rewrite filter_cons. simpl.
  repeat case_decide; try reflexivity; congruence.
Qed.

(** What the loop leaves under each key. *)
Lemma group_loop_lookup pairs m label :
  group_loop pairs m !! label =
    match m !! label, members label pairs with
    | None, [] => None
    | o, ms => Some (default [] o ++ ms)
    end.
Proof.
  revert m. induction pairs as [|[l x] pairs IH]; intros m; simpl.
  - unfold members; simpl. destruct (m !! label); simpl; [|reflexivity].
    now rewrite app_nil_r.
  - rewrite IH, append_to_insert, members_cons.
    destruct (decide (l = label)) as [->|Hne].
    + rewrite lookup_insert_eq.
      destruct (m !! label); simpl; now rewrite <- ?app_assoc.
    + now rewrite lookup_insert_ne by congruence.
Qed.

Lemma elem_of_members label x pairs :
  x ∈ members label pairs ↔ (label, x) ∈ pairs.
Proof.
  unfold members. rewrite list_elem_of_fmap. split.
  - intros [[l y] [-> [Hl Hin]%list_elem_of_filter]]. simpl in *. now subst.
  - intros Hin. exists (label, x). split; [reflexivity|].
    apply list_elem_of_filter. now split.
Qed.


Lemma all_members_append_to label item m :
  all_members (append_to label item m) ≡ₚ all_members m ++ [item].
Proof.
  rewrite append_to_insert. unfold all_members.
  destruct (m !! label) as [xs|] eqn:Hl; simpl.
  - rewrite <- insert_delete_eq.
    rewrite map_to_list_insert by apply lookup_delete_eq.
    rewrite <- (insert_delete_id m label xs) at 2 by assumption.
    rewrite (map_to_list_insert (delete label m) label xs)
      by apply lookup_delete_eq.
    simpl. rewrite <- !app_assoc. apply Permutation_app_head, Permutation_app_comm.
  - rewrite map_to_list_insert by assumption. simpl. apply Permutation_cons_append.
Qed.

Lemma all_members_group_loop pairs m :
  all_members (group_loop pairs m) ≡ₚ all_members m ++ pairs.*2.
Proof.
  revert m. induction pairs as [|[l x] pairs IH]; intros m; simpl.
  - now rewrite app_nil_r.
  - rewrite IH, all_members_append_to, <- app_assoc. reflexivity.
Qed.
End GroupingFacts.

(** ** DBSCAN: shape of the labels *)

Section DBSCANFacts.
Context {X : Type} (within : X -> X -> bool) (min_samples : Z).

Lemma expand_length fuel is_core nbs label_num i stack labels :
  length (Sklearn.expand fuel is_core nbs label_num i stack labels)
  = length labels.
Proof.
  revert i stack labels.
  induction fuel as [|fuel IH]; intros i stack labels; simpl; [reflexivity|].
  destruct (Sklearn.unlabelled labels i); [destruct (default false _)|];
    match goal with
    | |- context [match ?s with [] => _ | _ => _ end] => destruct s
    end; rewrite ?IH, ?length_insert; reflexivity.
Qed.

Lemma dbscan_inner_length fuel is_core nbs label_num todo labels :
  length (Sklearn.dbscan_inner fuel is_core nbs label_num todo labels)
  = length labels.
Proof.
  revert label_num labels.
  induction todo as [|i todo IH]; intros label_num labels; simpl; [reflexivity|].
  destruct (_ || _); rewrite IH, ?expand_length; reflexivity.
Qed.

(** One label per sample. *)
Lemma fit_predict_length xs :
  length (Sklearn.fit_predict within min_samples xs) = length xs.
Proof.
  unfold Sklearn.fit_predict, Sklearn.fit_predict_fuel.
  now rewrite dbscan_inner_length, length_replicate.
Qed.

Lemma expand_labels_ge fuel is_core nbs label_num i stack labels :
  (0 <= label_num)%Z ->
  Forall (fun l => (-1 <= l)%Z) labels ->
  Forall (fun l => (-1 <= l)%Z)
    (Sklearn.expand fuel is_core nbs label_num i stack labels).
Proof.
  intros Hn. revert i stack labels.
  induction fuel as [|fuel IH]; intros i stack labels Hl; simpl; [assumption|].
  assert (Forall (fun l => (-1 <= l)%Z) (<[i:=label_num]> labels))
    by (apply Forall_insert; [assumption | lia]).
  destruct (Sklearn.unlabelled labels i); [destruct (default false _)|];
    match goal with
    | |- context [match ?s with [] => _ | _ => _ end] => destruct s
    end; try apply IH; assumption.
Qed.

Lemma dbscan_inner_labels_ge fuel is_core nbs label_num todo labels :
  (0 <= label_num)%Z ->
  Forall (fun l => (-1 <= l)%Z) labels ->
  Forall (fun l => (-1 <= l)%Z)
    (Sklearn.dbscan_inner fuel is_core nbs label_num todo labels).
Proof.
  revert label_num labels.
  induction todo as [|i todo IH]; intros label_num labels Hn Hl; simpl;
    [assumption|].
  destruct (_ || _); apply IH; try lia; try assumption.
  now apply expand_labels_ge.
Qed.

(** Every label is a cluster number or [-1]. *)
Lemma fit_predict_labels_ge xs :
  Forall (fun l => (-1 <= l)%Z) (Sklearn.fit_predict within min_samples xs).
Proof.
  unfold Sklearn.fit_predict, Sklearn.fit_predict_fuel.
  apply dbscan_inner_labels_ge; [lia|].
  apply Forall_replicate. lia.
Qed.

(** *** The walks end within the fuel *)

Lemma pending_le labels : Sklearn.pending labels <= length labels.
Proof. apply length_filter. Qed.

Lemma pending_insert labels i l :
  labels !! i = Some (-1)%Z -> l ≠ (-1)%Z ->
  S (Sklearn.pending (<[i := l]> labels)) = Sklearn.pending labels.
Proof.
  unfold Sklearn.pending. revert i.
  induction labels as [|x labels IH]; intros [|i] Hi Hl; simpl in *;
    try discriminate.
  - injection Hi as ->. rewrite !filter_cons.
    rewrite decide_False, decide_True by (assumption || reflexivity).
    reflexivity.
  - rewrite !filter_cons. destruct (decide (x = (-1)%Z)); simpl;
      now rewrite (IH i Hi Hl).
Qed.

Lemma indices_from_length i (p : X -> bool) xs :
  length (Sklearn.indices_from i p xs) <= length xs.
Proof.
  revert i. induction xs as [|x xs IH]; intros i; simpl; [lia|].
  destruct (p x); simpl; specialize (IH (S i)); lia.
Qed.

Lemma radius_neighbors_length xs :
  Forall (fun nb => length nb <= length xs) (Sklearn.radius_neighbors within xs).
Proof.
  unfold Sklearn.radius_neighbors. apply Forall_forall.
  intros nb [x [-> _]]%list_elem_of_fmap. apply indices_from_length.
Qed.

Lemma expand_fuel n is_core nbs label_num :
  (0 <= label_num)%Z -> Forall (fun nb => length nb <= n) nbs ->
  ∀ f1 f2 i stack labels,
    S n * Sklearn.pending labels + length stack < f1 ->
    S n * Sklearn.pending labels + length stack < f2 ->
    Sklearn.expand f1 is_core nbs label_num i stack labels
    = Sklearn.expand f2 is_core nbs label_num i stack labels.
Proof.
  intros Hn Hnbs.
  induction f1 as [|f1 IH]; intros [|f2] i stack labels H1 H2; try lia.
  simpl. destruct (Sklearn.unlabelled labels i) eqn:Hi.
  - apply bool_decide_eq_true in Hi.
    pose proof (pending_insert labels i label_num Hi ltac:(lia)) as Hp.
    destruct (default false (is_core !! i)).
    + set (new := filter _ (default [] (nbs !! i))).
      assert (Hnew : length new <= n).
      { etransitivity; [apply length_filter|].
        destruct (nbs !! i) as [nb|] eqn:Hnb; simpl; [|lia].
        rewrite Forall_forall in Hnbs. apply Hnbs.
        eapply list_elem_of_lookup_2; eassumption. }
      destruct (rev new ++ stack) as [|v rest] eqn:Hst; [reflexivity|].
      assert (length (rev new ++ stack) = S (length rest)) by now rewrite Hst.
      rewrite length_app, length_rev in *.
      apply IH; nia.
    + destruct stack as [|v rest]; [reflexivity|]. simpl in *.
      apply IH; nia.
  - destruct stack as [|v rest]; [reflexivity|]. simpl in *.
    apply IH; lia.
Qed.

Lemma dbscan_inner_fuel n is_core nbs f1 f2 :
  Forall (fun nb => length nb <= n) nbs ->
  S n * n < f1 -> S n * n < f2 ->
  ∀ todo label_num labels,
    (0 <= label_num)%Z -> length labels <= n ->
    Sklearn.dbscan_inner f1 is_core nbs label_num todo labels
    = Sklearn.dbscan_inner f2 is_core nbs label_num todo labels.
Proof.
  intros Hnbs H1 H2.
  induction todo as [|i todo IH]; intros label_num labels Hn Hl; simpl;
    [reflexivity|].
  destruct (_ || _); [now apply IH|].
  pose proof (pending_le labels).
  rewrite (expand_fuel n is_core nbs label_num Hn Hnbs f1 f2) by (simpl; nia).
  apply IH; [lia|]. now rewrite expand_length.
Qed.

(** More fuel than [fit_predict] takes changes no label: no walk of
    [fit_predict] is cut short. *)
Lemma fit_predict_fuel_enough xs fuel :
  S (length xs * S (length xs)) <= fuel ->
  Sklearn.fit_predict_fuel within min_samples fuel xs
  = Sklearn.fit_predict within min_samples xs.
Proof.
  intros Hf. unfold Sklearn.fit_predict, Sklearn.fit_predict_fuel.
  apply (dbscan_inner_fuel (length xs)).
  - apply radius_neighbors_length.
  - lia.
  - lia.
  - lia.
  - now rewrite length_replicate.
Qed.

(** The labels depend on the metric only through the pairs of samples. *)
Lemma fit_predict_ext (within' : X -> X -> bool) xs :
  (∀ x y, x ∈ xs -> y ∈ xs -> within x y = within' x y) ->
  Sklearn.fit_predict within min_samples xs
  = Sklearn.fit_predict within' min_samples xs.
Proof.
  intros Hext. unfold Sklearn.fit_predict, Sklearn.fit_predict_fuel.
  assert (Hidx : ∀ (p q : X -> bool) l i,
             (∀ y, y ∈ l -> p y = q y) ->
             Sklearn.indices_from i p l = Sklearn.indices_from i q l).
  { intros p q l. induction l as [|y l IH]; intros i Hpq; simpl; [reflexivity|].
    rewrite (Hpq y) by apply list_elem_of_here.
    rewrite (IH (S i)); [reflexivity|].
    intros z Hz. apply Hpq. now apply list_elem_of_further. }
  assert (Hnb : Sklearn.radius_neighbors within xs
                = Sklearn.radius_neighbors within' xs).
  { unfold Sklearn.radius_neighbors. apply map_ext_in. intros x Hx.
    apply Hidx. intros y Hy. apply Hext; [now apply list_elem_of_In | assumption]. }
  now rewrite Hnb.
Qed.
End DBSCANFacts.

(** The shape of [test_dbscan_clustering]: three samples within [eps] of
    each other, two more within [eps] of each other only,
    [min_samples = 3]. *)
Example fit_predict_test_labels :
  Sklearn.fit_predict
    (fun i j : nat => bool_decide (i < 3 ∧ j < 3 ∨ 3 <= i ∧ 3 <= j)) 3
    [0; 1; 2; 3; 4] = [0; 0; 0; -1; -1]%Z.
Proof. vm_compute. reflexivity. Qed.

(** ** Clustering *)

Section ClusteringFacts.
Import Service.
Implicit Types (self : GeographicAnalyzer) (locations : list GeoLocation).

Lemma cluster_labels_length self locations :
  length (cluster_labels self locations) = length locations.
Proof. unfold cluster_labels. now rewrite fit_predict_length, length_map. Qed.

Lemma identify_clusters_unfold self locations :
  identify_clusters self locations
  = group_loop (zip (cluster_labels self locations) locations) ∅.
Proof. destruct locations; reflexivity. Qed.

Lemma identify_clusters_lookup self locations label :
  identify_clusters self locations !! label =
    match members label (zip (cluster_labels self locations) locations) with
    | [] => None
    | ms => Some ms
    end.
Proof.
  rewrite identify_clusters_unfold, group_loop_lookup, lookup_empty.
  now destruct (members _ _).
Qed.


Lemma snd_unique {B C} (pairs : list (B * C)) l1 l2 x :
  NoDup pairs.*2 -> (l1, x) ∈ pairs -> (l2, x) ∈ pairs -> l1 = l2.
Proof.
  induction pairs as [|[l y] pairs IH]; simpl; intros Hnd H1 H2.
  - now apply elem_of_nil in H1.
  - apply NoDup_cons in Hnd as [Hnot Hnd].
    apply elem_of_cons in H1 as [H1|H1], H2 as [H2|H2]; simplify_eq;
      try reflexivity; try (now apply IH).
    + destruct Hnot. apply list_elem_of_fmap. now exists (l2, y).
    + destruct Hnot. apply list_elem_of_fmap. now exists (l1, y).
Qed.

Lemma zip_labels_snd self locations :
  (zip (cluster_labels self locations) locations).*2 = locations.
Proof. apply snd_zip. rewrite cluster_labels_length. lia. Qed.
End ClusteringFacts.

(** C8.  Clustering an empty list of locations returns the empty mapping:
    an ordinary result, nothing is raised. *)
Theorem identify_clusters_empty (self : Service.GeographicAnalyzer) :
  Service.identify_clusters self [] = ∅.
Proof. reflexivity. Qed.


Lemma haversine_metric_self (x : R * R) : Sklearn.haversine_metric x x = 0%R.
Proof.
  unfold Sklearn.haversine_metric.
  rewrite !Rminus_diag, !Rmult_0_r, sin_0.
  replace (0 ^ 2 + cos x.1 * cos x.1 * 0 ^ 2)%R with 0%R by ring.
  rewrite sqrt_0, asin_0. ring.
Qed.

(** [test_edge_cases]: two locations at the same point are one cluster. *)
Example identify_clusters_same_point :
  Service.identify_clusters Tests.analyzer [Tests.point1; Tests.point2]
  = {[ 0%Z := [Tests.point1; Tests.point2] ]}.
Proof.
  assert (Hl : Service.cluster_labels Tests.analyzer [Tests.point1; Tests.point2]
               = [0; 0]%Z).
  { unfold Service.cluster_labels.
    rewrite (fit_predict_ext _ _ (fun _ _ => true)); [vm_compute; reflexivity|].
    intros x y Hx Hy. apply bool_decide_eq_true.
    assert (Hsame : ∀ z, z ∈ map (fun loc => (Q2R (Service.latitude loc),
                                            Q2R (Service.longitude loc)))
                            [Tests.point1; Tests.point2] ->
                         z = (Q2R 0, Q2R 0)).
    { intros z Hz. simpl in Hz.
      apply elem_of_cons in Hz as [->|Hz]; [reflexivity|].
      apply list_elem_of_singleton in Hz as ->. reflexivity. }
    rewrite (Hsame x Hx), (Hsame y Hy), haversine_metric_self.
    rewrite <- RMicromega.Q2R_0. apply Qreals.Qle_Rle. discriminate. }
  unfold Service.identify_clusters. rewrite Hl. simpl.
  rewrite !append_to_insert, lookup_empty, lookup_insert_eq. simpl.
  now rewrite insert_insert_eq.
Qed.

Section RouterFacts.
Import Models.
Context {S : Type} (serialize : Location -> S).

Lemma group_clusters_keys pairs (clusters : gmap Z (list S)) label bucket :
  RouterV2.group_clusters serialize pairs clusters !! label = Some bucket ->
  (0 <= label)%Z ∨ is_Some (clusters !! label).
Proof.
  revert clusters. induction pairs as [|[loc l] pairs IH]; intros clusters; simpl.
  - intros ->. right. eauto.
  - destruct (0 <=? l)%Z eqn:Hl; [|apply IH].
    intros [?|Hs]%IH; [now left|].
    rewrite append_to_insert in Hs.
    destruct (decide (l = label)) as [->|Hne]; [left; lia|].
    rewrite lookup_insert_ne in Hs by assumption. now right.
Qed.
End RouterFacts.


(** C3.  The buckets of [identify_clusters] partition the input: listed
    one after the other they are a rearrangement of the input list, a
    location is in a bucket exactly when it is in the input, and when the
    input has no repetition no location is in two buckets or twice in
    one.  The noise set is the bucket under [-1]. *)
Theorem identify_clusters_partition (self : Service.GeographicAnalyzer)
    (locations : list Service.GeoLocation) :
  let clusters := Service.identify_clusters self locations in
  all_members clusters ≡ₚ locations
  ∧ (∀ x, x ∈ locations ↔
          ∃ label bucket, clusters !! label = Some bucket ∧ x ∈ bucket)
  ∧ (NoDup locations →
       (∀ l1 l2 b1 b2 x, clusters !! l1 = Some b1 → clusters !! l2 = Some b2 →
                         x ∈ b1 → x ∈ b2 → l1 = l2)
       ∧ (∀ label bucket, clusters !! label = Some bucket → NoDup bucket)).
Proof.
  intros clusters.
  set (pairs := zip (Service.cluster_labels self locations) locations).
  assert (Hsnd : pairs.*2 = locations) by apply zip_labels_snd.
  assert (Hbucket : ∀ label bucket, clusters !! label = Some bucket →
                                    bucket = members label pairs).
  { intros label bucket. unfold clusters. rewrite identify_clusters_lookup.
    fold pairs. destruct (members label pairs); congruence. }
  split; [|split].
  - unfold clusters. rewrite identify_clusters_unfold, all_members_group_loop.
    fold pairs. rewrite Hsnd. unfold all_members.
    now rewrite map_to_list_empty.
  - intros x. split.
    + intros Hx. rewrite <- Hsnd in Hx.
      apply list_elem_of_fmap in Hx as [[l y] [-> Hin]]. simpl.
      exists l, (members l pairs). split; [|now apply elem_of_members].
      unfold clusters. rewrite identify_clusters_lookup. fold pairs.
      apply elem_of_members in Hin. destruct (members l pairs); [|reflexivity].
      now apply elem_of_nil in Hin.
    + intros (l & b & Hb & Hx). rewrite (Hbucket _ _ Hb) in Hx.
      apply elem_of_members in Hx. rewrite <- Hsnd.
      apply list_elem_of_fmap. now exists (l, x).
  - intros Hnd. rewrite <- Hsnd in Hnd. split.
    + intros l1 l2 b1 b2 x H1 H2 Hx1 Hx2.
      rewrite (Hbucket _ _ H1) in Hx1. rewrite (Hbucket _ _ H2) in Hx2.
      apply elem_of_members in Hx1, Hx2. exact (snd_unique pairs l1 l2 x Hnd Hx1 Hx2).
    + intros label bucket Hb. rewrite (Hbucket _ _ Hb). unfold members.
      eapply sublist_NoDup; [exact Hnd|].
      apply fmap_sublist, sublist_filter.
Qed.

(** ** Heatmaps *)

Section HeatmapFacts.
Import Models.

Lemma div_len_returns x n :
  n ≠ 0%nat ->
  Visualization.div_len x n = Return (x / inject_Z (Z.of_nat n))%Q.
Proof. intros Hn. unfold Visualization.div_len. now rewrite decide_False. Qed.

Lemma create_heatmap_computed (locations : list Location) center_lat center_lon :
  locations ≠ [] -> center_lat = None ∨ center_lon = None ->
  ∃ m, Visualization.create_heatmap locations center_lat center_lon = Return m
       ∧ Folium.location m =
           ((Qsum (map (fun loc => latitude (coordinates loc)) locations)
             / inject_Z (Z.of_nat (length locations)))%Q,
            (Qsum (map (fun loc => longitude (coordinates loc)) locations)
             / inject_Z (Z.of_nat (length locations)))%Q).
Proof.
  intros Hne Hc. unfold Visualization.create_heatmap.
  assert (Hn : length locations ≠ 0%nat) by (destruct locations; [congruence | discriminate]).
  destruct Hc as [-> | ->]; [|destruct center_lat];
    rewrite !div_len_returns by assumption; simpl; eauto.
Qed.

Lemma create_heatmap_raises (locations : list Location) center_lat center_lon :
  (∃ e, Visualization.create_heatmap locations center_lat center_lon = Raise e)
  ↔ locations = [] ∧ (center_lat = None ∨ center_lon = None).
Proof.
  split.
  - intros [e He]. destruct locations as [|loc locations].
    + split; [reflexivity|].
      destruct center_lat, center_lon; auto. discriminate.
    + destruct center_lat as [lat|], center_lon as [lon|];
        try discriminate;
        edestruct (create_heatmap_computed (loc :: locations)) as (m & Hm & _);
        try (rewrite Hm in He; discriminate); auto; discriminate.
  - intros [-> Hc]. exists ZeroDivisionError.
    destruct Hc as [-> | ->]; [|destruct center_lat]; reflexivity.
Qed.
End HeatmapFacts.

(** C2, as stated, fails for the service: with an empty list of locations
    [generate_risk_heatmap] raises although a center was supplied. *)
Lemma generate_risk_heatmap_empty_with_center :
  Service.generate_risk_heatmap Service.default_analyzer [] (Some (0, 0)%Q)
  = Raise ValueError.
Proof. reflexivity. Qed.

(** C2, amended.  [generate_risk_heatmap] raises exactly when the list of
    locations is empty, whether or not a center was supplied;
    [create_heatmap] raises exactly when the list is empty and a center
    coordinate is missing.  On a non-empty list with no center both
    return a map centered on the arithmetic mean of the latitudes and of
    the longitudes. *)
Theorem heatmap_failure_and_center :
  (∀ self locations center,
     (∃ e, Service.generate_risk_heatmap self locations center = Raise e)
     ↔ locations = [])
  ∧ (∀ locations center_lat center_lon,
       (∃ e, Visualization.create_heatmap locations center_lat center_lon = Raise e)
       ↔ locations = [] ∧ (center_lat = None ∨ center_lon = None))
  ∧ (∀ self locations, locations ≠ [] →
       ∃ m, Service.generate_risk_heatmap self locations None = Return m
            ∧ Folium.location m =
                ((Qsum (map Service.latitude locations)
                  / inject_Z (Z.of_nat (length locations)))%Q,
                 (Qsum (map Service.longitude locations)
                  / inject_Z (Z.of_nat (length locations)))%Q))
  ∧ (∀ locations, locations ≠ [] →
       ∃ m, Visualization.create_heatmap locations None None = Return m
            ∧ Folium.location m =
                ((Qsum (map (fun loc => Models.latitude (Models.coordinates loc))
                          locations)
                  / inject_Z (Z.of_nat (length locations)))%Q,
                 (Qsum (map (fun loc => Models.longitude (Models.coordinates loc))
                          locations)
                  / inject_Z (Z.of_nat (length locations)))%Q)).
Proof.
  split; [|split; [|split]].
  - intros self locations center. split.
    + intros [e He]. destruct locations; [reflexivity | discriminate].
    + intros ->. now exists ValueError.
  - apply create_heatmap_raises.
  - intros self locations Hne. destruct locations as [|loc locations];
      [congruence|].
    eexists. split; [reflexivity|]. unfold Service.mean.
    now rewrite !length_map.
  - intros locations Hne. apply create_heatmap_computed; auto.
Qed.

(** C10.  With an empty list of locations and both center coordinates
    supplied, [create_heatmap] returns a map: its center is the supplied
    one and its heat layer has no points. *)
Theorem create_heatmap_empty_with_center (center_lat center_lon : Q) :
  ∃ m, Visualization.create_heatmap [] (Some center_lat) (Some center_lon) = Return m
       ∧ Folium.location m = (center_lat, center_lon)
       ∧ map Folium.data (Folium.layers m) = [[]].
Proof. eexists. split; [reflexivity|]. split; reflexivity. Qed.

(** ** The order of [sorted] *)

Section SortedFacts.
Import Analysis.

Lemma ascii_compare_lt_trans a b c :
  Ascii.compare a b = Lt -> Ascii.compare b c = Lt -> Ascii.compare a c = Lt.
Proof.
  unfold Ascii.compare. rewrite !N.compare_lt_iff. lia.
Qed.

Lemma string_compare_lt_trans s1 s2 s3 :
  String.compare s1 s2 = Lt -> String.compare s2 s3 = Lt ->
  String.compare s1 s3 = Lt.
Proof.
  revert s2 s3. induction s1 as [|a s1 IH]; intros [|b s2] [|c s3]; simpl;
    try discriminate; try reflexivity.
  destruct (Ascii.compare a b) eqn:Hab; try discriminate;
    destruct (Ascii.compare b c) eqn:Hbc; try discriminate.
  - apply Ascii.compare_eq_iff in Hab, Hbc. subst.
    replace (Ascii.compare c c) with Eq; [apply IH|].
    symmetry. unfold Ascii.compare. apply N.compare_refl.
  - apply Ascii.compare_eq_iff in Hab. subst. now rewrite Hbc.
  - apply Ascii.compare_eq_iff in Hbc. subst. now rewrite Hab.
  - now rewrite (ascii_compare_lt_trans a b c).
Qed.

Lemma string_leb_refl s : String.leb s s = true.
Proof. destruct (String.leb_total s s); assumption. Qed.

Lemma string_leb_trans s1 s2 s3 :
  String.leb s1 s2 = true -> String.leb s2 s3 = true -> String.leb s1 s3 = true.
Proof.
  unfold String.leb.
  destruct (String.compare s1 s2) eqn:H12; try discriminate;
    destruct (String.compare s2 s3) eqn:H23; try discriminate; intros _ _.
  - apply String.compare_eq_iff in H12, H23. subst. apply string_leb_refl.
  - apply String.compare_eq_iff in H12. subst. now rewrite H23.
  - apply String.compare_eq_iff in H23. subst. now rewrite H12.
  - now rewrite (string_compare_lt_trans s1 s2 s3).
Qed.

Lemma insert_sorted_perm x l : insert_sorted x l ≡ₚ x :: l.
Proof.
  induction l as [|y l IH]; simpl; [reflexivity|].
  destruct (String.leb x y); [reflexivity|].
  rewrite IH. apply Permutation_swap.
Qed.

Lemma sorted_perm keys : sorted keys ≡ₚ keys.
Proof.
  induction keys as [|k keys IH]; simpl; [reflexivity|].
  unfold sorted in *. simpl. now rewrite insert_sorted_perm, IH.
Qed.

Lemma ascending_cons x l :
  ascending (x :: l) ↔ (∀ y, y ∈ l -> String.leb x y = true) ∧ ascending l.
Proof.
  split.
  - intros H. split.
    + intros y [j Hj]%list_elem_of_lookup.
      apply (H 0%nat (S j) x y); [lia | reflexivity | assumption].
    + intros i j a b Hij Ha Hb. apply (H (S i) (S j)); [lia | assumption..].
  - intros [Hx Hl] [|i] [|j] a b Hij Ha Hb; simpl in *; simplify_eq.
    + apply string_leb_refl.
    + apply Hx. eapply list_elem_of_lookup_2; eassumption.
    + lia.
    + apply (Hl i j); [lia | assumption..].
Qed.

Lemma insert_sorted_ascending x l : ascending l -> ascending (insert_sorted x l).
Proof.
  induction l as [|y l IH]; simpl; intros Hl.
  - apply ascending_cons. split; [intros ? []%elem_of_nil | intros [|?] [|?]; discriminate].
  - destruct (String.leb x y) eqn:Hxy.
    + apply ascending_cons. split; [|assumption].
      apply ascending_cons in Hl as [Hy _].
      intros z [->|Hz]%elem_of_cons; [assumption|].
      eapply string_leb_trans; [exact Hxy | now apply Hy].
    + apply ascending_cons in Hl as [Hy Hl].
      apply ascending_cons. split; [|now apply IH].
      intros z Hz. rewrite insert_sorted_perm in Hz.
      apply elem_of_cons in Hz as [->|Hz]; [|now apply Hy].
      destruct (String.leb_total x y) as [H|H]; congruence.
Qed.

Lemma sorted_ascending keys : ascending (sorted keys).
Proof.
  induction keys as [|k keys IH]; [intros [|?] [|?]; discriminate|].
  now apply insert_sorted_ascending.
Qed.

(** [dates[-1]] is the key that follows all others. *)
Lemma last_sorted_max keys k :
  last (sorted keys) = Some k ↔
  k ∈ keys ∧ ∀ k', k' ∈ keys -> String.leb k' k = true.
Proof.
  assert (Hfwd : ∀ m, last (sorted keys) = Some m ->
                      m ∈ keys ∧ ∀ k', k' ∈ keys -> String.leb k' m = true).
  { intros m Hm. rewrite last_lookup in Hm. split.
    - rewrite <- sorted_perm. eapply list_elem_of_lookup_2; eassumption.
    - intros k' Hk'. rewrite <- sorted_perm in Hk'.
      apply list_elem_of_lookup in Hk' as [i Hi].
      apply (sorted_ascending keys i (pred (length (sorted keys))) k' m);
        [|assumption..].
      apply lookup_lt_Some in Hi. lia. }
  split; [apply Hfwd|].
  intros [Hin Hmax].
  destruct (last (sorted keys)) as [m|] eqn:Hm.
  - destruct (Hfwd m eq_refl) as [Hmin Hmmax]. f_equal.
    apply String.leb_antisym; auto.
  - apply last_None in Hm. rewrite <- sorted_perm, Hm in Hin.
    now apply elem_of_nil in Hin.
Qed.
End SortedFacts.

(** ** Spread vector of one location *)

Section SpreadVectorFacts.
Import Models Analysis.
Context (shift : string -> Z -> Result string).

Lemma latest_key_last tl k :
  latest_key tl k ↔ last (sorted (map_to_list tl).*1) = Some k.
Proof.
  rewrite last_sorted_max. unfold latest_key.
  assert (Hkeys : ∀ x, x ∈ (map_to_list tl).*1 ↔ is_Some (tl !! x)).
  { intros x. rewrite list_elem_of_fmap. split.
    - intros [[y v] [-> Hin]]. apply elem_of_map_to_list in Hin. simpl. eauto.
    - intros [v Hv]. exists (x, v). split; [reflexivity|].
      now apply elem_of_map_to_list. }
  rewrite Hkeys. split; intros [H1 H2]; (split; [assumption|]);
    intros k' Hk'; apply H2; now apply Hkeys.
Qed.

Lemma series_Some location tl :
  series location = Some tl ->
  ∃ tls conf, timelines location = Some tls
              ∧ timelines_confirmed tls = Some conf ∧ timeline conf = tl.
Proof.
  unfold series. destruct (timelines location) as [tls|]; [|discriminate].
  simpl. destruct (timelines_confirmed tls) as [conf|] eqn:Hc; [|discriminate].
  simpl. intros [= <-]. now exists tls, conf.
Qed.

(** The function, once the series and its latest key are known. *)
Lemma calculate_spread_vector_latest location days tl k :
  series location = Some tl -> latest_key tl k ->
  calculate_spread_vector shift location days =
    try_except (
      shifted ← shift (rstrip_Z k) days;
      let start_date := shifted +:+ "Z" in
      if decide (tl !! start_date = None) then Return None
      else
        start_cases ← getitem tl start_date;
        end_cases ← getitem tl k;
        let total_increase := (end_cases - start_cases)%Z in
        daily_increase ← truediv total_increase days;
        Return (Some {|
          start_date := start_date; end_date := k;
          start_cases := start_cases; end_cases := end_cases;
          total_increase := total_increase;
          daily_increase := daily_increase;
          location_id := id location |})).
Proof.
  intros (tls & conf & Ht & Hc & <-)%series_Some Hk%latest_key_last.
  unfold calculate_spread_vector. rewrite Ht. simpl. rewrite Hc. simpl.
  now rewrite Hk.
Qed.

Lemma calculate_spread_vector_no_key location days tl :
  series location = Some tl -> (∀ k, ¬ latest_key tl k) ->
  calculate_spread_vector shift location days = Return None.
Proof.
  intros (tls & conf & Ht & Hc & <-)%series_Some Hno.
  unfold calculate_spread_vector. rewrite Ht. simpl. rewrite Hc. simpl.
  destruct (last _) as [k|] eqn:Hk; [|reflexivity].
  apply latest_key_last in Hk. now destruct (Hno k).
Qed.
End SpreadVectorFacts.

(** C4.  The claim holds of the design and the code misses a case.  The
    series of the tests has the latest key [2020-03-15T10:20:30.123456Z].
    Moved back by a window of 800000 days this timestamp lies before the
    year 1, so that the series has no key equal to it and the result
    should be absent.  The date arithmetic raises [OverflowError]
    instead; the [except] clause lists [AttributeError], [KeyError] and
    [ValueError] only, and the error leaves [calculate_spread_vector]. *)
Theorem calculate_spread_vector_window_out_of_range :
  let tl : gmap string Z :=
    <["2020-03-01T10:20:30.123456Z" := 100%Z]>
      (<["2020-03-15T10:20:30.123456Z" := 200%Z]> ∅) in
  Analysis.series TestsClustering.loc = Some tl
  ∧ Analysis.latest_key tl "2020-03-15T10:20:30.123456Z"
  ∧ Datetime.iso_minus_days
      (Analysis.rstrip_Z "2020-03-15T10:20:30.123456Z") 800000
    = Raise OverflowError
  ∧ Analysis.calculate_spread_vector Datetime.iso_minus_days
      TestsClustering.loc 800000 = Raise OverflowError.
Proof.
  intros tl. split; [reflexivity|]. split; [|split].
  - apply latest_key_last. vm_compute. reflexivity.
  - vm_compute. reflexivity.
  - vm_compute. reflexivity.
Qed.

(** C5.  Every result of [calculate_spread_vector] has [total_increase]
    equal to the count at the end timestamp minus the count at the start
    timestamp, and [daily_increase] equal to [total_increase] divided by
    the window as a fraction; for a positive window a negative total
    gives a negative rate.  The series [{T0: 100, T0+14d: 200}] of the
    tests with a window of 14 days gives 100 and 100/14, within 0.01 of
    7.14. *)
Theorem calculate_spread_vector_result :
  (∀ (shift : string -> Z -> Result string) location days v,
     Analysis.calculate_spread_vector shift location days = Return (Some v) ->
     ∃ tl, Analysis.series location = Some tl
       ∧ Analysis.latest_key tl (Analysis.end_date v)
       ∧ tl !! Analysis.end_date v = Some (Analysis.end_cases v)
       ∧ (∃ start, shift (Analysis.rstrip_Z (Analysis.end_date v)) days = Return start
                   ∧ Analysis.start_date v = start +:+ "Z")
       ∧ tl !! Analysis.start_date v = Some (Analysis.start_cases v)
       ∧ Analysis.total_increase v
         = (Analysis.end_cases v - Analysis.start_cases v)%Z
       ∧ days ≠ 0%Z
       ∧ Analysis.daily_increase v
         = (inject_Z (Analysis.total_increase v) / inject_Z days)%Q
       ∧ ((0 < days)%Z -> (Analysis.total_increase v < 0)%Z ->
          (Analysis.daily_increase v < 0)%Q))
  ∧ (∃ v, Analysis.calculate_spread_vector Datetime.iso_minus_days
            TestsClustering.loc 14 = Return (Some v)
          ∧ Analysis.start_cases v = 100%Z ∧ Analysis.end_cases v = 200%Z
          ∧ Analysis.total_increase v = 100%Z
          ∧ Analysis.daily_increase v = (100 # 14)%Q
          ∧ (Qabs (Analysis.daily_increase v - 7.14) < 0.01)%Q).
Proof.
  split.
  - intros shift location days v Hv.
    destruct (Analysis.series location) as [tl|] eqn:Hs.
    2:{ unfold Analysis.calculate_spread_vector, Analysis.series in *.
        destruct (Models.timelines location) as [tls|]; simpl in *;
          [|discriminate].
        destruct (Models.timelines_confirmed tls); simpl in *; discriminate. }
    exists tl. split; [reflexivity|].
    destruct (last (Analysis.sorted (map_to_list tl).*1)) as [k|] eqn:Hk.
    2:{ rewrite (calculate_spread_vector_no_key shift location days tl Hs) in Hv;
          [discriminate|].
        intros k Hlk%latest_key_last. congruence. }
    apply latest_key_last in Hk.
    rewrite (calculate_spread_vector_latest shift location days tl k Hs Hk) in Hv.
    destruct (shift (Analysis.rstrip_Z k) days) as [start|e] eqn:Hshift;
      [|destruct e; discriminate].
    simpl in Hv. case_decide as Hstart; [discriminate|].
    unfold Analysis.getitem in Hv.
    destruct (tl !! (start +:+ "Z")) as [sc|] eqn:Hsc; [|congruence].
    destruct Hk as [[ec Hec] Hmax]. rewrite Hec in Hv. simpl in Hv.
    unfold Analysis.truediv in Hv. case_decide as Hd; [discriminate|].
    destruct (_ <=? _)%Z; [discriminate|].
    simpl in Hv. injection Hv as <-. simpl.
    repeat split; eauto.
    intros Hpos Hneg. apply Qlt_shift_div_r.
    + unfold Qlt; simpl; lia.
    + unfold Qlt; simpl. lia.
  - eexists. split; [vm_compute; reflexivity|]. simpl.
    repeat split; reflexivity.
Qed.

(** ** Spread vectors of the service *)

Section SpreadVectorsFacts.
Import Pandas Service.

Lemma key_eqb_sym a b : key_eqb a b = true -> key_eqb b a = true.
Proof.
  unfold key_eqb. rewrite !andb_true_iff, !Qeq_bool_iff.
  intros [H1 H2]. split; symmetry; assumption.
Qed.

Lemma key_eqb_trans a b c :
  key_eqb a b = true -> key_eqb b c = true -> key_eqb a c = true.
Proof.
  unfold key_eqb. rewrite !andb_true_iff, !Qeq_bool_iff.
  intros [H1 H2] [H3 H4]. split; etransitivity; eassumption.
Qed.

Lemma elem_of_rows_at {V} k (s : list (Key * V)) r :
  r ∈ rows_at k s ↔ key_eqb k r.1 = true ∧ r ∈ s.
Proof. unfold rows_at. now rewrite list_elem_of_filter. Qed.

(** A label present on both sides gives the difference of its values. *)
Lemma elem_of_sub a b ra rb :
  ra ∈ a -> rb ∈ b -> key_eqb ra.1 rb.1 = true ->
  (ra.1, Num (ra.2 - rb.2)) ∈ sub a b.
Proof.
  intros Ha Hb Hk. unfold sub. apply elem_of_app. left.
  apply list_elem_of_In, in_flat_map. exists ra.
  split; [now apply list_elem_of_In|].
  assert (Hin : rb ∈ rows_at ra.1 b) by now apply elem_of_rows_at.
  destruct (rows_at ra.1 b) as [|r0 rs] eqn:Hrows;
    [now apply elem_of_nil in Hin|].
  apply list_elem_of_In.
  apply (list_elem_of_fmap_2 (fun r' => (ra.1, Num (ra.2 - r'.2))) _ _ Hin).
Qed.

Lemma vectors_loop_elem index case_changes acc vectors t :
  vectors_loop index case_changes acc = Return vectors -> t ∈ vectors ->
  t ∈ acc ∨ ∃ k k' m, t = (k.1, k.2, m) ∧ k ∈ index
                       ∧ rows_at k case_changes = [(k', m)]
                       ∧ ne_zero m = true.
Proof.
  revert acc. induction index as [|k index IH]; simpl; intros acc Hv Ht.
  - injection Hv as <-. now left.
  - destruct (rows_at k case_changes) as [|[k' m] [|r rs]] eqn:Hrows;
      [| |discriminate].
    + destruct (IH _ Hv Ht) as [?|(k0 & k0' & m0 & -> & Hin & ?)]; [now left|].
      right. exists k0, k0', m0. rewrite elem_of_cons. auto.
    + destruct (ne_zero m) eqn:Hm.
      * destruct (IH _ Hv Ht) as [Hacc|(k0 & k0' & m0 & -> & Hin & ?)].
        -- apply elem_of_app in Hacc as [?|Hnew]; [now left|].
           apply list_elem_of_singleton in Hnew as ->. right.
           exists k, k', m. rewrite elem_of_cons. auto.
        -- right. exists k0, k0', m0. rewrite elem_of_cons. auto.
      * destruct (IH _ Hv Ht) as [?|(k0 & k0' & m0 & -> & Hin & ?)]; [now left|].
        right. exists k0, k0', m0. rewrite elem_of_cons. auto.
Qed.

Lemma elem_of_cases_on d df row :
  row ∈ df -> Datetime.date (timestamp row) = d ->
  ((latitude row, longitude row), cases row) ∈ cases_on d df.
Proof.
  intros Hin Hd. unfold cases_on.
  apply (list_elem_of_fmap_2
           (fun loc => ((latitude loc, longitude loc), cases loc))).
  now apply list_elem_of_filter.
Qed.

(** The function, once it has returned: the loop ran over the
    differences between the end date and the day [days] before it. *)
Lemma calculate_spread_vectors_returned self historical_data days vectors :
  calculate_spread_vectors self historical_data days = Return vectors ->
  ∃ end_date,
    max_timestamp historical_data = Return end_date
    ∧ vectors_loop
        (sub (cases_on (Datetime.date end_date) historical_data)
             (cases_on (Datetime.date end_date - days) historical_data)).*1
        (sub (cases_on (Datetime.date end_date) historical_data)
             (cases_on (Datetime.date end_date - days) historical_data)) []
      = Return vectors.
Proof.
  unfold calculate_spread_vectors.
  destruct (max_timestamp historical_data) as [end_date|]; [|discriminate].
  cbn [mbind Result_bind]. unfold Datetime.minus_days.
  destruct (999999999 <? Z.abs days)%Z; [discriminate|].
  intros Hv. exists end_date. split; [reflexivity | exact Hv].
Qed.
End SpreadVectorsFacts.

(** [test_calculate_spread_vectors] has no row on the start date: every
    location of the end date comes back with a [NaN] magnitude. *)
Example calculate_spread_vectors_no_start_rows :
  Service.calculate_spread_vectors Tests.analyzer (take 2 Tests.history) 7
  = Return [(40.7128%Q, (-74.0060)%Q, Pandas.NaN);
            (34.0522%Q, (-118.2437)%Q, Pandas.NaN)].
Proof. vm_compute. reflexivity. Qed.

(** C9.  Every tuple that [calculate_spread_vectors] returns has a
    magnitude other than 0, and a location whose count on the end date
    equals its count on the start date has no tuple in the result. *)
Theorem calculate_spread_vectors_nonzero (self : Service.GeographicAnalyzer)
    (historical_data : list Service.GeoLocation) (days : Z)
    (vectors : list (Q * Q * Pandas.Cell)) :
  Service.calculate_spread_vectors self historical_data days = Return vectors ->
  (∀ lat lon magnitude, (lat, lon, magnitude) ∈ vectors -> magnitude ≠ Pandas.Num 0)
  ∧ (∀ end_date row_start row_end,
       Service.max_timestamp historical_data = Return end_date ->
       row_start ∈ historical_data -> row_end ∈ historical_data ->
       Datetime.date (Service.timestamp row_start)
         = (Datetime.date end_date - days)%Z ->
       Datetime.date (Service.timestamp row_end) = Datetime.date end_date ->
       Pandas.key_eqb (Service.latitude row_end, Service.longitude row_end)
         (Service.latitude row_start, Service.longitude row_start) = true ->
       Service.cases row_start = Service.cases row_end ->
       ∀ lat lon magnitude, (lat, lon, magnitude) ∈ vectors ->
         Pandas.key_eqb (lat, lon)
           (Service.latitude row_end, Service.longitude row_end) = false).
Proof.
  intros (end_date & Hmax & Hv)%calculate_spread_vectors_returned. split.
  - intros lat lon m Hin.
    destruct (vectors_loop_elem _ _ _ _ _ Hv Hin)
      as [[]%elem_of_nil|(k & k' & m' & [= -> -> ->] & _ & _ & Hne)].
    intros ->. discriminate.
  - intros ? row_start row_end Hmax' Hs He Hds Hde Hkey Hsame lat lon m Hin.
    rewrite Hmax in Hmax'. injection Hmax' as <-.
    destruct (vectors_loop_elem _ _ _ _ _ Hv Hin)
      as [[]%elem_of_nil|(k & k' & m' & [= -> -> ->] & _ & Hrows & Hne)].
    destruct (Pandas.key_eqb (k.1, k.2) _) eqn:Hk; [exfalso|reflexivity].
    pose proof (elem_of_cases_on _ _ _ He Hde) as Hre.
    pose proof (elem_of_cases_on _ _ _ Hs Hds) as Hrs.
    pose proof (elem_of_sub _ _ _ _ Hre Hrs Hkey) as Hsub.
    assert (Hk' : Pandas.key_eqb k
                    (Service.latitude row_end, Service.longitude row_end) = true)
      by (destruct k; exact Hk).
    simpl in Hsub.
    pose proof (proj2 (elem_of_rows_at k _ (_, _)) (conj Hk' Hsub)) as Hin'.
    unfold Datetime.date in *. simpl in *.
    rewrite Hrows in Hin'. apply list_elem_of_singleton in Hin'.
    injection Hin' as _ <-. rewrite Hsame, Z.sub_diag in Hne. discriminate.
Qed.

Lemma calculate_spread_vectors_nonzero_witness :
  Service.calculate_spread_vectors Tests.analyzer Tests.history 7
  = Return [(40.7128%Q, (-74.0060)%Q, Pandas.Num 70)]
  ∧ ∀ lat lon magnitude,
      (lat, lon, magnitude) ∈ [(40.7128%Q, (-74.0060)%Q, Pandas.Num 70)] ->
      magnitude ≠ Pandas.Num 0.
Proof.
  assert (H : Service.calculate_spread_vectors Tests.analyzer Tests.history 7
              = Return [(40.7128%Q, (-74.0060)%Q, Pandas.Num 70)])
    by (vm_compute; reflexivity).
  split; [exact H|].
  exact (proj1 (calculate_spread_vectors_nonzero _ _ _ _ H)).
Defined.

(** ** Distance *)

Section HaversineFacts.
Local Open Scope R_scope.

(** The haversine term of two points, as both distance functions
    compute it. *)
Lemma haversine_term_sym lat1 lon1 lat2 lon2 :
  (sin ((lat2 - lat1) / 2)) ^ 2 + cos lat1 * cos lat2 * (sin ((lon2 - lon1) / 2)) ^ 2
  = (sin ((lat1 - lat2) / 2)) ^ 2 + cos lat2 * cos lat1 * (sin ((lon1 - lon2) / 2)) ^ 2.
Proof.
  replace ((lat1 - lat2) / 2) with (- ((lat2 - lat1) / 2)) by lra.
  replace ((lon1 - lon2) / 2) with (- ((lon2 - lon1) / 2)) by lra.
  rewrite !sin_neg. ring.
Qed.

Lemma sin_half_sq x : (sin (x / 2)) ^ 2 = (1 - cos x) / 2.
Proof.
  replace x with (2 * (x / 2)) at 2 by lra.
  rewrite cos_2a_sin. simpl. lra.
Qed.

(** The term lies in [0, 1], whatever the angles. *)
Lemma haversine_term_bounds lat1 lon1 lat2 lon2 :
  0 <= (sin ((lat2 - lat1) / 2)) ^ 2
       + cos lat1 * cos lat2 * (sin ((lon2 - lon1) / 2)) ^ 2 <= 1.
Proof.
  rewrite !sin_half_sq, cos_minus.
  set (t := cos (lon2 - lon1)).
  pose proof (COS_bound (lon2 - lon1)) as [Ht1 Ht2]. fold t in Ht1, Ht2.
  pose proof (sin2_cos2 lat1) as H1. pose proof (sin2_cos2 lat2) as H2.
  unfold Rsqr in H1, H2.
  set (s1 := sin lat1) in *. set (c1 := cos lat1) in *.
  set (s2 := sin lat2) in *. set (c2 := cos lat2) in *.
  assert (Hq : 0 <= c2 * c2 * (1 - t * t)).
  { apply Rmult_le_pos; nra. }
  pose proof (Rle_0_sqr (s1 - s2)) as A1. pose proof (Rle_0_sqr (c1 - c2 * t)) as A2.
  pose proof (Rle_0_sqr (s1 + s2)) as B1. pose proof (Rle_0_sqr (c1 + c2 * t)) as B2.
  unfold Rsqr in A1, A2, B1, B2.
  split; nra.
Qed.

Lemma PyMath_sqrt_nonneg x : 0 <= x -> PyMath.sqrt x = Return (sqrt x).
Proof. intros Hx. unfold PyMath.sqrt. destruct (Rlt_dec x 0); [lra | reflexivity]. Qed.

(** In exact arithmetic [haversine_distance] raises nothing: both square
    roots have a non-negative argument.  (This is where rounding would
    matter: a term rounded above 1 makes [1 - a] negative.) *)
Lemma haversine_distance_value lat1 lon1 lat2 lon2 :
  let a := (sin ((PyMath.radians lat2 - PyMath.radians lat1) / 2)) ^ 2
           + cos (PyMath.radians lat1) * cos (PyMath.radians lat2)
             * (sin ((PyMath.radians lon2 - PyMath.radians lon1) / 2)) ^ 2 in
  Geo.haversine_distance lat1 lon1 lat2 lon2
  = Return (6371 * (2 * PyMath.atan2 (sqrt a) (sqrt (1 - a)))).
Proof.
  intros a. unfold Geo.haversine_distance. cbv zeta. fold a.
  pose proof (haversine_term_bounds (PyMath.radians lat1) (PyMath.radians lon1)
                (PyMath.radians lat2) (PyMath.radians lon2)) as Ha. fold a in Ha.
  rewrite (PyMath_sqrt_nonneg a) by lra. simpl.
  rewrite (PyMath_sqrt_nonneg (1 - a)) by lra. reflexivity.
Qed.

(** On [0, 1] the two inverse forms are the same angle. *)
Lemma atan2_sqrt_asin a :
  0 <= a <= 1 -> PyMath.atan2 (sqrt a) (sqrt (1 - a)) = asin (sqrt a).
Proof.
  intros [H0 H1]. unfold PyMath.atan2.
  destruct (Req_dec a 1) as [->|Hne].
  - replace (1 - 1) with 0 by lra. rewrite sqrt_0, sqrt_1, asin_1.
    destruct (Rlt_dec 0 0); [lra|]. destruct (Rlt_dec 0 1); [reflexivity | lra].
  - assert (Hs : 0 < sqrt (1 - a)) by (apply sqrt_lt_R0; lra).
    destruct (Rlt_dec 0 (sqrt (1 - a))); [|lra].
    assert (Hx : sqrt a < 1).
    { rewrite <- sqrt_1. apply sqrt_lt_1_alt. lra. }
    pose proof (sqrt_pos a).
    rewrite asin_atan by lra.
    unfold Rsqr. now rewrite sqrt_sqrt by assumption.
Qed.

(** In exact arithmetic the service's distance is the utility's. *)
Lemma haversine_forms_agree_over_reals self lat1 lon1 lat2 lon2 :
  Geo.haversine_distance lat1 lon1 lat2 lon2
  = Return (Service._haversine_distance self lat1 lon1 lat2 lon2).
Proof.
  rewrite haversine_distance_value. cbv zeta.
  unfold Service._haversine_distance. cbv zeta.
  now rewrite atan2_sqrt_asin by apply haversine_term_bounds.
Qed.
End HaversineFacts.

(** C7.  [haversine_distance] is symmetric: with the two points exchanged
    the outcome is the same, hence the same distance.  (In exact
    arithmetic the outcome is always a distance, by
    [haversine_distance_value].) *)
Theorem haversine_distance_symmetric (lat1 lon1 lat2 lon2 : R) :
  Geo.haversine_distance lat1 lon1 lat2 lon2
  = Geo.haversine_distance lat2 lon2 lat1 lon1.
Proof.
  unfold Geo.haversine_distance. cbv zeta.
  now rewrite (haversine_term_sym (PyMath.radians lat1)).
Qed.

(** * Further properties *)

(** ** Distance *)

(** X1.  The distance of a point to itself is 0. *)
Theorem haversine_distance_same_point (lat lon : R) :
  Geo.haversine_distance lat lon lat lon = Return 0%R.
Proof.
  rewrite haversine_distance_value. cbv zeta. f_equal.
  rewrite !Rminus_diag. unfold Rdiv at 1 2 3 4. rewrite !Rmult_0_l, sin_0.
  replace (0 ^ 2 + cos (PyMath.radians lat) * cos (PyMath.radians lat) * 0 ^ 2)%R
    with 0%R by ring.
  rewrite Rminus_0_r, sqrt_0, sqrt_1. unfold PyMath.atan2.
  destruct (Rlt_dec 0 1) as [_|H]; [|exfalso; apply H; lra].
  unfold Rdiv. rewrite Rmult_0_l, atan_0. ring.
Qed.

(** ** DBSCAN: which samples are noise *)

Section DBSCANNoise.
Context {X : Type} (within : X -> X -> bool) (min_samples : Z).

Lemma indices_from_filter i (p : X -> bool) xs :
  length (Sklearn.indices_from i p xs) = length (filter (fun x => p x = true) xs).
Proof.
  revert i. induction xs as [|x xs IH]; intros i; simpl; [reflexivity|].
  rewrite filter_cons. destruct (p x) eqn:Hp.
  - rewrite decide_True by reflexivity. simpl. now rewrite IH.
  - rewrite decide_False by discriminate. apply IH.
Qed.

(** Whether sample [i] is a core sample. *)
Lemma core_samples_lookup xs i x :
  xs !! i = Some x ->
  Sklearn.core_samples min_samples (Sklearn.radius_neighbors within xs) !! i
  = Some (min_samples
          <=? Z.of_nat (length (filter (fun y => within x y = true) xs)))%Z.
Proof.
  intros Hi. unfold Sklearn.core_samples, Sklearn.radius_neighbors.
  rewrite !list_lookup_fmap, Hi. simpl. now rewrite indices_from_filter.
Qed.

Lemma dbscan_inner_no_core fuel is_core nbs label_num todo labels :
  (∀ i, i ∈ todo -> default false (is_core !! i) = false) ->
  Sklearn.dbscan_inner fuel is_core nbs label_num todo labels = labels.
Proof.
  revert label_num labels.
  induction todo as [|i todo IH]; intros label_num labels Hno; simpl;
    [reflexivity|].
  rewrite (Hno i) by apply list_elem_of_here. rewrite orb_true_r.
  apply IH. intros j Hj. apply Hno. now apply list_elem_of_further.
Qed.

(** Without a core sample every sample is noise. *)
Lemma fit_predict_all_noise xs :
  (∀ x, x ∈ xs ->
        (Z.of_nat (length (filter (fun y => within x y = true) xs))
         < min_samples)%Z) ->
  Sklearn.fit_predict within min_samples xs = replicate (length xs) (-1)%Z.
Proof.
  intros Hfew. unfold Sklearn.fit_predict, Sklearn.fit_predict_fuel.
  apply dbscan_inner_no_core. intros i _.
  destruct (xs !! i) as [x|] eqn:Hi.
  - rewrite (core_samples_lookup xs i x Hi). simpl.
    apply Z.leb_gt, Hfew. eapply list_elem_of_lookup_2; eassumption.
  - destruct (Sklearn.core_samples _ _ !! i) eqn:Hc; [|reflexivity].
    apply lookup_lt_Some in Hc. apply lookup_ge_None in Hi.
    unfold Sklearn.core_samples, Sklearn.radius_neighbors in Hc.
    rewrite !length_map in Hc. lia.
Qed.

Lemma fit_predict_few_samples xs :
  (Z.of_nat (length xs) < min_samples)%Z ->
  Sklearn.fit_predict within min_samples xs = replicate (length xs) (-1)%Z.
Proof.
  intros Hn. apply fit_predict_all_noise. intros x _.
  pose proof (length_filter (fun y => within x y = true) xs). lia.
Qed.

Lemma expand_keeps fuel is_core nbs label_num i stack labels j l :
  labels !! j = Some l -> l ≠ (-1)%Z ->
  Sklearn.expand fuel is_core nbs label_num i stack labels !! j = Some l.
Proof.
  revert i stack labels.
  induction fuel as [|fuel IH]; intros i stack labels Hj Hl; simpl;
    [assumption|].
  destruct (Sklearn.unlabelled labels i) eqn:Hi.
  - apply bool_decide_eq_true in Hi.
    assert (Hne : i ≠ j) by (intros ->; congruence).
    assert (Hj' : <[i := label_num]> labels !! j = Some l)
      by now rewrite list_lookup_insert_ne.
    destruct (default false (is_core !! i));
      match goal with
      | |- context [match ?s with [] => _ | _ => _ end] => destruct s
      end; try apply IH; assumption.
  - destruct stack; [assumption|]. now apply IH.
Qed.

Lemma dbscan_inner_keeps fuel is_core nbs label_num todo labels j l :
  labels !! j = Some l -> l ≠ (-1)%Z ->
  Sklearn.dbscan_inner fuel is_core nbs label_num todo labels !! j = Some l.
Proof.
  revert label_num labels.
  induction todo as [|i todo IH]; intros label_num labels Hj Hl; simpl;
    [assumption|].
  destruct (_ || _); apply IH; try assumption.
  now apply expand_keeps.
Qed.

Lemma expand_labels_start fuel is_core nbs label_num i stack labels :
  Sklearn.unlabelled labels i = true -> label_num ≠ (-1)%Z ->
  Sklearn.expand (S fuel) is_core nbs label_num i stack labels !! i
  = Some label_num.
Proof.
  intros Hi Hl. simpl. rewrite Hi. apply bool_decide_eq_true in Hi.
  assert (Hi' : <[i := label_num]> labels !! i = Some label_num).
  { apply list_lookup_insert_eq. eapply lookup_lt_Some; eassumption. }
  destruct (default false (is_core !! i));
    match goal with
    | |- context [match ?s with [] => _ | _ => _ end] => destruct s
    end; try apply expand_keeps; assumption.
Qed.

Lemma dbscan_inner_core_labelled fuel is_core nbs todo i :
  i ∈ todo -> default false (is_core !! i) = true ->
  ∀ label_num labels,
    (0 <= label_num)%Z -> i < length labels ->
    ∃ l, l ≠ (-1)%Z
         ∧ Sklearn.dbscan_inner (S fuel) is_core nbs label_num todo labels !! i
           = Some l.
Proof.
  intros Hin Hcore.
  induction todo as [|j todo IH]; [now apply elem_of_nil in Hin|].
  intros label_num labels Hn Hlen.
  apply elem_of_cons in Hin as [<-|Hin].
  - cbn [Sklearn.dbscan_inner]. rewrite Hcore. simpl negb. rewrite orb_false_r.
    destruct (Sklearn.unlabelled labels i) eqn:Hu; simpl negb; cbv iota.
    + exists label_num. split; [lia|]. apply dbscan_inner_keeps; [|lia].
      apply expand_labels_start; [assumption | lia].
    + destruct (lookup_lt_is_Some_2 labels i Hlen) as [l Hl].
      exists l. assert (l ≠ (-1)%Z).
      { intros ->. apply bool_decide_eq_false in Hu. congruence. }
      split; [assumption|]. now apply dbscan_inner_keeps.
  - cbn [Sklearn.dbscan_inner]. destruct (_ || _).
    + now apply IH.
    + apply IH; [assumption | lia | now rewrite expand_length].
Qed.

(** A core sample is never noise. *)
Lemma fit_predict_core xs i x :
  xs !! i = Some x ->
  (min_samples
   <= Z.of_nat (length (filter (fun y => within x y = true) xs)))%Z ->
  ∃ l, Sklearn.fit_predict within min_samples xs !! i = Some l ∧ (0 <= l)%Z.
Proof.
  intros Hi Hcore.
  assert (Hlt : i < length xs) by (eapply lookup_lt_Some; eassumption).
  pose proof (dbscan_inner_core_labelled (length xs * S (length xs))
              (Sklearn.core_samples min_samples (Sklearn.radius_neighbors within xs))
              (Sklearn.radius_neighbors within xs) (seq 0 (length xs)) i) as Hc.
  destruct (Hc ltac:(apply elem_of_seq; lia)
               ltac:(rewrite (core_samples_lookup xs i x Hi); simpl;
                     now apply Z.leb_le)
               0%Z (replicate (length xs) (-1)%Z) ltac:(lia)
               ltac:(now rewrite length_replicate))
    as (l & Hl & Hlookup).
  exists l. split; [exact Hlookup|].
  pose proof (fit_predict_labels_ge within min_samples xs) as Hge.
  rewrite Forall_forall in Hge.
  assert (-1 <= l)%Z; [|lia].
  apply Hge. eapply list_elem_of_lookup_2. exact Hlookup.
Qed.
End DBSCANNoise.

(** ** Clusters of the service *)

Section ServiceClusterFacts.
Import Service.
Implicit Types (self : GeographicAnalyzer) (locations : list GeoLocation).

Lemma length_mjoin_nonempty {A} (ls : list (list A)) :
  Forall (fun l => l ≠ []) ls -> length ls <= length (mjoin ls).
Proof.
  induction 1 as [|l ls Hl _ IH]; simpl; [lia|].
  rewrite length_app. destruct l; [congruence|]. simpl. lia.
Qed.

Lemma identify_clusters_bucket_nonempty self locations label bucket :
  identify_clusters self locations !! label = Some bucket -> bucket ≠ [].
Proof.
  rewrite identify_clusters_lookup. destruct (members _ _); congruence.
Qed.

Lemma members_replicate {A} (label l : Z) (items : list A) :
  members label (zip (replicate (length items) l) items)
  = if decide (l = label) then items else [].
Proof.
  induction items as [|x items IH]; simpl.
  - now case_decide.
  - rewrite members_cons, IH. now case_decide.
Qed.

Lemma coordinates_filter self loc locations :
  length (filter (fun y => bool_decide
                     (Sklearn.haversine_metric
                        (Q2R (latitude loc), Q2R (longitude loc)) y
                      <= Q2R (eps_km self / 111))%R = true)
            (map (fun l => (Q2R (latitude l), Q2R (longitude l))) locations))
  = length (filter (fun other => neighbours self loc other = true) locations).
Proof.
  induction locations as [|l locations IH]; [reflexivity|].
  simpl map. rewrite !filter_cons.
  destruct (decide (neighbours self loc l = true)) as [Hn|Hn];
    unfold neighbours in Hn.
  - rewrite decide_True by exact Hn. simpl. now rewrite IH.
  - rewrite decide_False by exact Hn. exact IH.
Qed.

Lemma length_filter_impl {A} (p q : A -> bool) (l : list A) :
  (∀ x, x ∈ l -> p x = true -> q x = true) ->
  length (filter (fun x => p x = true) l) <= length (filter (fun x => q x = true) l).
Proof.
  induction l as [|x l IH]; intros Hpq; [reflexivity|].
  assert (IH' := IH (fun y Hy => Hpq y (list_elem_of_further _ _ _ Hy))).
  rewrite !filter_cons.
  destruct (decide (p x = true)) as [Hp|Hp].
  - rewrite decide_True by (apply Hpq; [apply list_elem_of_here | exact Hp]).
    simpl. lia.
  - destruct (decide (q x = true)); simpl; lia.
Qed.

(** Two locations with the same coordinates are at distance 0, hence
    neighbours for every radius that is not negative. *)
Lemma same_point_neighbours self a b :
  (0 <= eps_km self)%Q -> same_point a b = true -> neighbours self a b = true.
Proof.
  intros Heps Hsame. unfold same_point, Pandas.key_eqb in Hsame. simpl in Hsame.
  apply andb_true_iff in Hsame as [Hlat Hlon].
  apply Qeq_bool_iff, Qreals.Qeq_eqR in Hlat, Hlon.
  unfold neighbours. apply bool_decide_eq_true.
  rewrite Hlat, Hlon, haversine_metric_self.
  rewrite <- RMicromega.Q2R_0. apply Qreals.Qle_Rle.
  apply Qle_shift_div_l; [reflexivity|]. now rewrite Qmult_0_l.
Qed.

Lemma accepted_eps_km self : accepted self -> (0 <= eps_km self)%Q.
Proof. intros [Heps _]. eapply Qle_trans; [|exact Heps]. discriminate. Qed.

(** A location with at least [min_samples] neighbours is a core sample:
    its label is not [-1]. *)
Lemma cluster_labels_core self locations i loc :
  locations !! i = Some loc ->
  (min_samples self
   <= Z.of_nat (length (filter (fun other => neighbours self loc other = true)
                          locations)))%Z ->
  ∃ label, cluster_labels self locations !! i = Some label ∧ (0 <= label)%Z.
Proof.
  intros Hi Hcore.
  apply (fit_predict_core
           (fun x y => bool_decide (Sklearn.haversine_metric x y
                                    <= Q2R (eps_km self / 111))%R)
           (min_samples self)
           (map (fun l => (Q2R (latitude l), Q2R (longitude l))) locations) i
           (Q2R (latitude loc), Q2R (longitude loc))).
  - now rewrite list_lookup_fmap, Hi.
  - now rewrite coordinates_filter.
Qed.

(** The bucket of the label that a location carries. *)
Lemma identify_clusters_bucket_of self locations i loc label :
  locations !! i = Some loc ->
  cluster_labels self locations !! i = Some label ->
  ∃ bucket, identify_clusters self locations !! label = Some bucket ∧ loc ∈ bucket.
Proof.
  intros Hi Hlabel.
  assert (Hin : (label, loc) ∈ zip (cluster_labels self locations) locations).
  { apply list_elem_of_lookup. exists i. apply lookup_zip_with_Some.
    exists label, loc. auto. }
  exists (members label (zip (cluster_labels self locations) locations)). split.
  - rewrite identify_clusters_lookup.
    apply elem_of_members in Hin. destruct (members _ _); [|reflexivity].
    now apply elem_of_nil in Hin.
  - now apply elem_of_members.
Qed.
End ServiceClusterFacts.

(** X5.  The mapping of [identify_clusters] is empty only for an empty
    list of locations; no bucket is empty, and there are at most as many
    buckets as locations. *)
Theorem identify_clusters_buckets (self : Service.GeographicAnalyzer)
    (locations : list Service.GeoLocation) :
  (Service.identify_clusters self locations = ∅ ↔ locations = [])
  ∧ (∀ label bucket,
       Service.identify_clusters self locations !! label = Some bucket →
       bucket ≠ [])
  ∧ size (Service.identify_clusters self locations) <= length locations.
Proof.
  split; [|split].
  - split; [|now intros ->].
    intros Hempty. destruct locations as [|x rest]; [reflexivity|exfalso].
    pose proof (zip_labels_snd self (x :: rest)) as Hsnd.
    destruct (zip (Service.cluster_labels self (x :: rest)) (x :: rest))
      as [|[l y] pairs] eqn:Hz; [discriminate|].
    pose proof (identify_clusters_lookup self (x :: rest) l) as Hl.
    rewrite Hz, members_cons, decide_True, Hempty, lookup_empty in Hl
      by reflexivity.
    discriminate.
  - apply identify_clusters_bucket_nonempty.
  - rewrite <- (length_map_to_list (Service.identify_clusters self locations)).
    rewrite <- (length_fmap snd).
    etransitivity; [apply length_mjoin_nonempty|].
    + apply Forall_forall. intros bucket [[l b] [-> Hin]]%list_elem_of_fmap.
      apply elem_of_map_to_list in Hin. simpl.
      eapply identify_clusters_bucket_nonempty; eassumption.
    + fold (all_members (Service.identify_clusters self locations)).
      rewrite identify_clusters_unfold, all_members_group_loop, zip_labels_snd.
      unfold all_members. rewrite map_to_list_empty. simpl. lia.
Qed.

(** X6.  For a configuration that DBSCAN takes (see [Service.accepted];
    the library raises on the others): with fewer locations than
    [min_samples] no location can be a core sample, every location is
    noise, and [identify_clusters] returns the single bucket [-1] with
    all locations in input order. *)
Theorem identify_clusters_few_locations (self : Service.GeographicAnalyzer)
    (locations : list Service.GeoLocation) :
  Service.accepted self ->
  locations ≠ [] ->
  (Z.of_nat (length locations) < Service.min_samples self)%Z ->
  Service.identify_clusters self locations = {[ (-1)%Z := locations ]}.
Proof.
  intros _ Hne Hfew.
  assert (Hl : Service.cluster_labels self locations
               = replicate (length locations) (-1)%Z).
  { unfold Service.cluster_labels. rewrite fit_predict_few_samples.
    - now rewrite length_map.
    - now rewrite length_map. }
  apply map_eq. intros label. rewrite identify_clusters_lookup, Hl.
  rewrite members_replicate. case_decide as Hd.
  - subst. rewrite lookup_singleton_eq. destruct locations; congruence.
  - now rewrite lookup_singleton_ne.
Qed.

Lemma identify_clusters_few_locations_witness :
  Service.accepted Tests.analyzer
  ∧ Service.identify_clusters Tests.analyzer [Tests.single]
    = {[ (-1)%Z := [Tests.single] ]}.
Proof.
  assert (Ha : Service.accepted Tests.analyzer)
    by (split; [discriminate | simpl; lia]).
  split; [exact Ha|].
  apply (identify_clusters_few_locations Tests.analyzer [Tests.single] Ha);
    [discriminate | reflexivity].
Defined.

(** X7.  For a configuration that DBSCAN takes: a location whose
    coordinates occur at least [min_samples] times in the input, itself
    included, is never noise.  Locations with the same coordinates are
    at distance 0 of each other, so such a location is a core sample, and
    [identify_clusters] puts it in a bucket with a label [>= 0]. *)
Theorem identify_clusters_repeated_point (self : Service.GeographicAnalyzer)
    (locations : list Service.GeoLocation) (i : nat) (loc : Service.GeoLocation) :
  Service.accepted self ->
  locations !! i = Some loc ->
  (Service.min_samples self
   <= Z.of_nat (length (filter (fun other => Service.same_point loc other = true)
                          locations)))%Z ->
  ∃ label bucket,
    (0 <= label)%Z
    ∧ Service.cluster_labels self locations !! i = Some label
    ∧ Service.identify_clusters self locations !! label = Some bucket
    ∧ loc ∈ bucket.
Proof.
  intros Ha Hi Hcore.
  destruct (cluster_labels_core self locations i loc Hi) as (label & Hlabel & Hge).
  { etransitivity; [exact Hcore|]. apply inj_le.
    apply (length_filter_impl (Service.same_point loc) (Service.neighbours self loc)).
    intros other _. apply same_point_neighbours. now apply accepted_eps_km. }
  destruct (identify_clusters_bucket_of self locations i loc label Hi Hlabel)
    as (bucket & Hb & Hin).
  exists label, bucket. auto.
Qed.

Lemma identify_clusters_repeated_point_witness :
  Service.accepted Tests.analyzer
  ∧ ∃ label bucket,
      (0 <= label)%Z
      ∧ Service.cluster_labels Tests.analyzer [Tests.point1; Tests.point2] !! 0%nat
        = Some label
      ∧ Service.identify_clusters Tests.analyzer [Tests.point1; Tests.point2] !! label
        = Some bucket
      ∧ Tests.point1 ∈ bucket.
Proof.
  assert (Ha : Service.accepted Tests.analyzer)
    by (split; [discriminate | simpl; lia]).
  split; [exact Ha|].
  apply (identify_clusters_repeated_point Tests.analyzer
           [Tests.point1; Tests.point2] 0 Tests.point1 Ha eq_refl).
  vm_compute. discriminate.
Defined.

(** ** Clusters of the utility and of the v2 route *)

Section UtilityClusterFacts.
Import Models.

Lemma mapM_pure {A B} (f : A -> Result B) (g : A -> B) (l : list A) :
  (∀ x, f x = Return (g x)) -> mapM f l = Return (map g l).
Proof.
  intros Hf. induction l as [|x l IH]; [reflexivity|].
  simpl. rewrite Hf. simpl. rewrite IH. reflexivity.
Qed.

Lemma mapM_raises {A B} (f : A -> Result B) (l : list A) e :
  mapM f l = Raise e -> ∃ x, x ∈ l ∧ f x = Raise e.
Proof.
  induction l as [|x l IH]; simpl; [discriminate|].
  destruct (f x) as [y|e'] eqn:Hx; simpl.
  - destruct (mapM f l) as [ys|e'']; simpl; [discriminate|].
    intros [= ->]. destruct (IH eq_refl) as (x' & Hin & Hx').
    exists x'. split; [now apply list_elem_of_further | assumption].
  - intros [= ->]. exists x. split; [apply list_elem_of_here | assumption].
Qed.

(** The only exception of [haversine_distance] is that of a square
    root. *)
Lemma haversine_distance_raises lat1 lon1 lat2 lon2 e :
  Geo.haversine_distance lat1 lon1 lat2 lon2 = Raise e -> e = ValueError.
Proof.
  unfold Geo.haversine_distance, PyMath.sqrt. cbv zeta.
  repeat (destruct (Rlt_dec _ _); simpl); congruence.
Qed.

(** Whatever the distance matrix is, the labels that [dbscan_cluster]
    returns are those of a [fit_predict] over the row numbers. *)
Lemma dbscan_cluster_returned_labels (locations : list Location)
    eps_km min_samples labels :
  Geo.dbscan_cluster locations eps_km min_samples = Return labels ->
  ∃ within : nat -> nat -> bool,
    labels = Sklearn.fit_predict within min_samples (seq 0 (length locations)).
Proof.
  unfold Geo.dbscan_cluster. destruct (mapM _ _) as [distances|e]; [|discriminate].
  cbn [mbind Result_bind].
  destruct (Sklearn.check_input _ _ _) as [[]|e]; [|discriminate].
  intros [= <-]. rewrite length_map. eexists. reflexivity.
Qed.

Lemma dbscan_cluster_raises (locations : list Location) eps_km min_samples e :
  Geo.dbscan_cluster locations eps_km min_samples = Raise e -> e = ValueError.
Proof.
  unfold Geo.dbscan_cluster. destruct (mapM _ _) as [distances|e'] eqn:Hd.
  { cbn [mbind Result_bind]. unfold Sklearn.check_input.
    destruct (_ || _); [now intros [= <-] | discriminate]. }
  cbn [mbind Result_bind]. intros [= ->].
  apply mapM_raises in Hd as (ci & _ & Hd).
  apply mapM_raises in Hd as (cj & _ & Hd).
  now apply haversine_distance_raises in Hd.
Qed.

(** In exact arithmetic the distance matrix raises nothing: on input
    that passes the checks of the library, [dbscan_cluster] is a
    [fit_predict] over the row numbers. *)
Lemma dbscan_cluster_labels (locations : list Location) eps_km min_samples :
  Sklearn.check_input eps_km min_samples (length locations) = Return tt ->
  ∃ within : nat -> nat -> bool,
    Geo.dbscan_cluster locations eps_km min_samples
    = Return (Sklearn.fit_predict within min_samples (seq 0 (length locations))).
Proof.
  intros Hcheck. unfold Geo.dbscan_cluster.
  erewrite mapM_pure.
  2:{ intros ci. apply mapM_pure. intros cj. apply haversine_distance_value. }
  cbn [mbind Result_bind]. rewrite !length_map, Hcheck.
  cbn [mbind Result_bind]. eexists. reflexivity.
Qed.

Lemma has_min_cases_outcome min_cases (loc : Location) :
  RouterV2.has_min_cases min_cases loc =
    match RouterV2.confirmed_count loc with
    | Some _ => Return (RouterV2.qualifies min_cases loc)
    | None => Raise AttributeError
    end.
Proof.
  unfold RouterV2.has_min_cases, RouterV2.qualifies, RouterV2.confirmed_count.
  destruct (latest loc) as [l|]; [|reflexivity]. simpl.
  destruct (confirmed l); reflexivity.
Qed.

(** The filter of [get_clusters]: it raises when a location lacks the
    count, otherwise it keeps the locations that qualify. *)
Lemma filterM_has_min_cases min_cases (all : list Location) :
  filterM (RouterV2.has_min_cases min_cases) all =
    if decide (Forall (fun loc => is_Some (RouterV2.confirmed_count loc)) all)
    then Return (filter (fun loc => RouterV2.qualifies min_cases loc = true) all)
    else Raise AttributeError.
Proof.
  induction all as [|loc all IH]; cbn [filterM].
  - destruct (decide (Forall _ [])) as [_|H]; [reflexivity|].
    destruct H. constructor.
  - rewrite has_min_cases_outcome, IH.
    destruct (decide (Forall _ (loc :: all))) as [Hall'|Hall'].
    + inversion Hall' as [|? ? [c Hc] Hall]; subst.
      rewrite Hc, decide_True by assumption. rewrite filter_cons.
      destruct (RouterV2.qualifies min_cases loc);
        [now rewrite decide_True | now rewrite decide_False].
    + destruct (RouterV2.confirmed_count loc) as [c|] eqn:Hc; [|reflexivity].
      rewrite decide_False; [reflexivity|].
      intros Hall. apply Hall'. constructor; [rewrite Hc; eauto | assumption].
Qed.

Lemma group_clusters_members {S} (serialize : Location -> S) pairs
    (clusters : gmap Z (list S)) label bucket s :
  RouterV2.group_clusters serialize pairs clusters !! label = Some bucket ->
  s ∈ bucket ->
  (∃ b0, clusters !! label = Some b0 ∧ s ∈ b0)
  ∨ ∃ loc, (loc, label) ∈ pairs ∧ s = serialize loc.
Proof.
  revert clusters. induction pairs as [|[loc l] pairs IH]; intros clusters; simpl.
  - intros Hb Hs. left. eauto.
  - destruct (0 <=? l)%Z.
    + intros Hb Hs. destruct (IH _ Hb Hs) as [(b0 & Hb0 & Hs0)|(loc' & Hin & ->)].
      * rewrite append_to_insert in Hb0.
        destruct (decide (l = label)) as [->|Hne].
        -- rewrite lookup_insert_eq in Hb0. injection Hb0 as <-.
           apply elem_of_app in Hs0 as [Hs0|Hs0].
           ++ left. destruct (clusters !! label) as [b1|]; simpl in Hs0;
                [eauto | now apply elem_of_nil in Hs0].
           ++ apply list_elem_of_singleton in Hs0 as ->. right.
              exists loc. split; [apply list_elem_of_here | reflexivity].
        -- rewrite lookup_insert_ne in Hb0 by assumption. left. eauto.
      * right. exists loc'. split; [now apply list_elem_of_further | reflexivity].
    + intros Hb Hs. destruct (IH _ Hb Hs) as [?|(loc' & Hin & ->)]; [now left|].
      right. exists loc'. split; [now apply list_elem_of_further | reflexivity].
Qed.

Lemma group_clusters_all_noise {S} (serialize : Location -> S)
    (locations : list Location) (clusters : gmap Z (list S)) :
  RouterV2.group_clusters serialize
    (zip locations (replicate (length locations) (-1)%Z)) clusters = clusters.
Proof.
  induction locations as [|loc locations IH]; [reflexivity|]. simpl. exact IH.
Qed.

(** [get_clusters] by the outcome of its filter. *)
Lemma get_clusters_shape {S} (serialize : Location -> S) all min_cases radius_km :
  RouterV2.get_clusters serialize all min_cases radius_km =
    if decide (Forall (fun loc => is_Some (RouterV2.confirmed_count loc)) all)
    then let qualifying :=
           filter (fun loc => RouterV2.qualifies min_cases loc = true) all in
         match qualifying with
         | [] => Raise (HTTPException 404)
         | _ =>
             labels ← Geo.dbscan_cluster qualifying (inject_Z radius_km) min_cases;
             Return (RouterV2.group_clusters serialize (zip qualifying labels) ∅)
         end
    else Raise AttributeError.
Proof.
  unfold RouterV2.get_clusters. rewrite filterM_has_min_cases.
  case_decide; reflexivity.
Qed.

Lemma lacks_count (all : list Location) :
  ¬ Forall (fun loc => is_Some (RouterV2.confirmed_count loc)) all
  ↔ ∃ loc, loc ∈ all ∧ RouterV2.confirmed_count loc = None.
Proof.
  rewrite <- Exists_Forall_neg by (intros loc; destruct (RouterV2.confirmed_count loc);
                                    [left; eauto | right; intros [? ?]; discriminate]).
  rewrite Exists_exists. split; intros (loc & Hin & Hc); exists loc;
    (split; [assumption|]).
  - destruct (RouterV2.confirmed_count loc); [destruct Hc; eauto | reflexivity].
  - rewrite Hc. intros [? ?]. discriminate.
Qed.
End UtilityClusterFacts.

(** X8.  Whenever [dbscan_cluster] returns, it returns one label per
    location, each a cluster number or [-1]; with fewer locations than
    [min_samples] every label is [-1].  For a radius that is not
    positive and for an empty list there are no labels: the function
    raises [ValueError]. *)
Theorem dbscan_cluster_returned (locations : list Models.Location)
    (eps_km : Q) (min_samples : Z) :
  (∀ labels,
     Geo.dbscan_cluster locations eps_km min_samples = Return labels ->
     length labels = length locations
     ∧ Forall (fun l => (-1 <= l)%Z) labels
     ∧ ((Z.of_nat (length locations) < min_samples)%Z ->
        labels = replicate (length locations) (-1)%Z))
  ∧ ((eps_km <= 0)%Q ∨ locations = [] ->
     Geo.dbscan_cluster locations eps_km min_samples = Raise ValueError).
Proof.
  split.
  - intros labels [within ->]%dbscan_cluster_returned_labels. split; [|split].
    + now rewrite fit_predict_length, length_seq.
    + apply fit_predict_labels_ge.
    + intros Hfew. rewrite fit_predict_few_samples by now rewrite length_seq.
      now rewrite length_seq.
  - intros Hbad.
    destruct (Geo.dbscan_cluster locations eps_km min_samples) as [labels|e] eqn:Hd.
    + exfalso. unfold Geo.dbscan_cluster in Hd.
      destruct (mapM _ _) as [distances|e]; [|discriminate].
      cbn [mbind Result_bind] in Hd. unfold Sklearn.check_input in Hd.
      rewrite length_map in Hd.
      destruct Hbad as [Heps%Qle_bool_iff | ->];
        [rewrite Heps in Hd | rewrite orb_true_r in Hd]; discriminate.
    + f_equal. eapply dbscan_cluster_raises. exact Hd.
Qed.

Lemma dbscan_cluster_returned_witness :
  Geo.dbscan_cluster [TestsClustering.loc] 50 3 = Return [(-1)%Z]
  ∧ length [(-1)%Z] = length [TestsClustering.loc]
  ∧ Forall (fun l => (-1 <= l)%Z) [(-1)%Z]
  ∧ ((Z.of_nat (length [TestsClustering.loc]) < 3)%Z ->
     [(-1)%Z] = replicate (length [TestsClustering.loc]) (-1)%Z).
Proof.
  assert (H : Geo.dbscan_cluster [TestsClustering.loc] 50 3 = Return [(-1)%Z]).
  { destruct (dbscan_cluster_labels [TestsClustering.loc] 50 3 eq_refl)
      as [within ->].
    now rewrite fit_predict_few_samples. }
  split; [exact H|].
  exact (proj1 (dbscan_cluster_returned [TestsClustering.loc] 50 3) [(-1)%Z] H).
Defined.

(** X9.  The [/clusters] route passes [min_cases] to DBSCAN as
    [min_samples]: when every location has a confirmed count and fewer
    than [min_cases] of them reach [min_cases], no location can be a
    core sample, and a mapping that the route returns is empty. *)
Theorem get_clusters_few_qualifying {S : Type} (serialize : Models.Location -> S)
    (all : list Models.Location) (min_cases radius_km : Z)
    (routed : gmap Z (list S)) :
  Forall (fun loc => is_Some (RouterV2.confirmed_count loc)) all ->
  (Z.of_nat (length (filter (fun loc => RouterV2.qualifies min_cases loc = true) all))
   < min_cases)%Z ->
  RouterV2.get_clusters serialize all min_cases radius_km = Return routed ->
  routed = ∅.
Proof.
  intros Hall Hfew. rewrite get_clusters_shape, decide_True by assumption.
  cbv zeta. remember (filter (fun loc => RouterV2.qualifies min_cases loc = true) all)
    as qualifying eqn:Hq.
  clear Hq. destruct qualifying as [|loc rest]; [discriminate|]. cbv iota.
  destruct (Geo.dbscan_cluster (loc :: rest) _ _) as [labels|e] eqn:Hlabels;
    [|discriminate].
  cbn [mbind Result_bind]. intros [= <-].
  apply dbscan_cluster_returned_labels in Hlabels as [within ->].
  rewrite fit_predict_few_samples by now rewrite length_seq.
  rewrite length_seq. apply group_clusters_all_noise.
Qed.

Lemma get_clusters_few_qualifying_witness :
  Forall (fun loc => is_Some (RouterV2.confirmed_count loc))
    TestsClustering.heatmap_locations
  ∧ RouterV2.get_clusters (fun loc => Models.id loc)
      TestsClustering.heatmap_locations 150 100 = Return ∅.
Proof.
  assert (Hall : Forall (fun loc => is_Some (RouterV2.confirmed_count loc))
                   TestsClustering.heatmap_locations)
    by (repeat constructor; eexists; reflexivity).
  split; [exact Hall|].
  assert (Hret : ∃ routed,
            RouterV2.get_clusters (fun loc => Models.id loc)
              TestsClustering.heatmap_locations 150 100 = Return routed).
  { rewrite get_clusters_shape, decide_True by exact Hall. cbv zeta.
    match goal with
    | |- context [filter ?p TestsClustering.heatmap_locations] =>
        change (filter p TestsClustering.heatmap_locations)
          with [TestsClustering.mock 1 1 200; TestsClustering.mock (-1) (-1) 300]
    end.
    match goal with
    | |- context [Geo.dbscan_cluster ?l ?e ?m] =>
        destruct (dbscan_cluster_labels l e m eq_refl) as [within ->]
    end.
    eexists. reflexivity. }
  destruct Hret as [routed Hret]. rewrite Hret. f_equal.
  exact (get_clusters_few_qualifying (fun loc => Models.id loc)
           TestsClustering.heatmap_locations 150 100 routed Hall eq_refl Hret).
Defined.

(** X10.  Outcomes of the [/clusters] route.  It raises [AttributeError]
    exactly when some location lacks [latest.confirmed]; it answers 404
    exactly when every location has the count and none reaches
    [min_cases]; and a mapping that it returns has keys [>= 0] only, with
    bucket members that are serializations of locations that reach
    [min_cases]. *)
Theorem get_clusters_outcome {S : Type} (serialize : Models.Location -> S)
    (all : list Models.Location) (min_cases radius_km : Z) :
  let qualifying :=
    filter (fun loc => RouterV2.qualifies min_cases loc = true) all in
  (RouterV2.get_clusters serialize all min_cases radius_km = Raise AttributeError
   ↔ ∃ loc, loc ∈ all ∧ RouterV2.confirmed_count loc = None)
  ∧ (RouterV2.get_clusters serialize all min_cases radius_km
     = Raise (HTTPException 404)
     ↔ Forall (fun loc => is_Some (RouterV2.confirmed_count loc)) all
       ∧ qualifying = [])
  ∧ (∀ routed,
       RouterV2.get_clusters serialize all min_cases radius_km = Return routed →
       Forall (fun loc => is_Some (RouterV2.confirmed_count loc)) all
       ∧ qualifying ≠ []
       ∧ ∀ label bucket s, routed !! label = Some bucket → s ∈ bucket →
           (0 <= label)%Z ∧ ∃ loc, loc ∈ qualifying ∧ s = serialize loc).
Proof.
  intros qualifying. rewrite get_clusters_shape. cbv zeta. fold qualifying.
  split; [|split].
  - case_decide as Hall.
    + split; [|intros Hex; apply lacks_count in Hex; contradiction].
      destruct qualifying as [|q qs]; [discriminate|].
      destruct (Geo.dbscan_cluster _ _ _) as [labels|e] eqn:Hlabels; [discriminate|].
      apply dbscan_cluster_raises in Hlabels as ->. discriminate.
    + split; [intros _; now apply lacks_count | reflexivity].
  - case_decide as Hall.
    + split; [|intros [_ ->]; reflexivity].
      destruct qualifying as [|q qs]; [now split|].
      destruct (Geo.dbscan_cluster _ _ _) as [labels|e] eqn:Hlabels; [discriminate|].
      apply dbscan_cluster_raises in Hlabels as ->. discriminate.
    + split; [discriminate | intros [? _]; contradiction].
  - intros routed. case_decide as Hall; [|discriminate].
    destruct qualifying as [|q qs] eqn:Hq; [discriminate|]. rewrite <- Hq.
    destruct (Geo.dbscan_cluster _ _ _) as [labels|e]; [|discriminate].
    cbn [mbind Result_bind]. intros [= <-].
    split; [assumption|]. split; [rewrite Hq; discriminate|].
    intros label bucket s Hb Hs. split.
    + destruct (group_clusters_keys serialize _ _ _ _ Hb) as [?|[? Hl]];
        [assumption | now rewrite lookup_empty in Hl].
    + destruct (group_clusters_members serialize _ _ _ _ _ Hb Hs)
        as [(b0 & Hb0 & _)|(loc & Hin & ->)].
      * now rewrite lookup_empty in Hb0.
      * exists loc. split; [|reflexivity].
        apply elem_of_zip_l in Hin. exact Hin.
Qed.

(** ** Spread vector of one location: the other outcomes *)

(** X11.  [calculate_spread_vector] returns [None] when the location
    lacks [timelines] or [timelines.confirmed], and when the date
    arithmetic on the latest key raises one of the three exceptions that
    the [except] clause lists (a malformed timestamp is a [ValueError]);
    any other exception of the date arithmetic, such as an
    [OverflowError], leaves the function. *)
Theorem calculate_spread_vector_exceptions
    (shift : string -> Z -> Result string) (location : Models.Location)
    (days : Z) :
  (Analysis.series location = None ->
   Analysis.calculate_spread_vector shift location days = Return None)
  ∧ (∀ tl latest e,
       Analysis.series location = Some tl ->
       Analysis.latest_key tl latest ->
       shift (Analysis.rstrip_Z latest) days = Raise e ->
       (e = AttributeError ∨ e = KeyError ∨ e = ValueError ->
        Analysis.calculate_spread_vector shift location days = Return None)
       ∧ (e ≠ AttributeError -> e ≠ KeyError -> e ≠ ValueError ->
          Analysis.calculate_spread_vector shift location days = Raise e)).
Proof.
  split.
  - unfold Analysis.series, Analysis.calculate_spread_vector.
    destruct (Models.timelines location) as [tls|]; [|reflexivity]. simpl.
    destruct (Models.timelines_confirmed tls); [discriminate | reflexivity].
  - intros tl latest e Hs Hl He.
    rewrite (calculate_spread_vector_latest shift location days tl latest Hs Hl).
    rewrite He. simpl. split.
    + intros [->|[->| ->]]; reflexivity.
    + intros H1 H2 H3. destruct e; try reflexivity; congruence.
Qed.

Lemma calculate_spread_vector_exceptions_witness :
  Analysis.series TestsClustering.loc
  = Some (<["2020-03-01T10:20:30.123456Z" := 100%Z]>
            (<["2020-03-15T10:20:30.123456Z" := 200%Z]> ∅))
  ∧ Analysis.calculate_spread_vector Datetime.iso_minus_days
      TestsClustering.loc 800000 = Raise OverflowError.
Proof.
  split; [reflexivity|].
  refine (proj2 (proj2 (calculate_spread_vector_exceptions Datetime.iso_minus_days
                          TestsClustering.loc 800000)
                   _ "2020-03-15T10:20:30.123456Z" OverflowError eq_refl _ _)
            _ _ _); try discriminate.
  - apply latest_key_last. vm_compute. reflexivity.
  - vm_compute. reflexivity.
Defined.

(** X12.  When the series has the key that lies the window before its
    latest key and the window is not 0, [calculate_spread_vector]
    returns a vector: the two keys, their two counts, the difference and
    the difference divided by the window, with the location's id.  The
    one exception is a quotient too large for a float: from
    [2^1024 - 2^970] on, the division raises [OverflowError], which
    leaves the function. *)
Theorem calculate_spread_vector_present
    (shift : string -> Z -> Result string) (location : Models.Location)
    (days : Z) (tl : gmap string Z) (latest start : string) (sc ec : Z) :
  Analysis.series location = Some tl ->
  Analysis.latest_key tl latest ->
  shift (Analysis.rstrip_Z latest) days = Return start ->
  tl !! (start +:+ "Z") = Some sc ->
  tl !! latest = Some ec ->
  days ≠ 0%Z ->
  ((Z.abs (ec - sc) < Analysis.float_overflow * Z.abs days)%Z ->
   Analysis.calculate_spread_vector shift location days =
     Return (Some {|
       Analysis.start_date := start +:+ "Z";
       Analysis.end_date := latest;
       Analysis.start_cases := sc;
       Analysis.end_cases := ec;
       Analysis.total_increase := ec - sc;
       Analysis.daily_increase := (inject_Z (ec - sc) / inject_Z days)%Q;
       Analysis.location_id := Models.id location |}))
  ∧ ((Analysis.float_overflow * Z.abs days <= Z.abs (ec - sc))%Z ->
     Analysis.calculate_spread_vector shift location days = Raise OverflowError).
Proof.
  intros Hs Hl Hshift Hsc Hec Hd.
  rewrite (calculate_spread_vector_latest shift location days tl latest Hs Hl).
  rewrite Hshift. simpl. rewrite decide_False by congruence.
  unfold Analysis.getitem. rewrite Hsc, Hec. simpl.
  unfold Analysis.truediv. rewrite decide_False by assumption.
  split; intros Hq.
  - apply Z.leb_gt in Hq. now rewrite Hq.
  - apply Z.leb_le in Hq. now rewrite Hq.
Qed.

Lemma calculate_spread_vector_present_witness :
  Analysis.calculate_spread_vector Datetime.iso_minus_days TestsClustering.loc 14 =
    Return (Some {|
      Analysis.start_date := "2020-03-01T10:20:30.123456Z";
      Analysis.end_date := "2020-03-15T10:20:30.123456Z";
      Analysis.start_cases := 100;
      Analysis.end_cases := 200;
      Analysis.total_increase := 200 - 100;
      Analysis.daily_increase := (inject_Z (200 - 100) / inject_Z 14)%Q;
      Analysis.location_id := 1 |}).
Proof.
  refine (proj1 (calculate_spread_vector_present Datetime.iso_minus_days
                   TestsClustering.loc 14 _ "2020-03-15T10:20:30.123456Z"
                   "2020-03-01T10:20:30.123456" 100 200 eq_refl _ _ _ _ _) _).
  - apply latest_key_last. vm_compute. reflexivity.
  - vm_compute. reflexivity.
  - vm_compute. reflexivity.
  - vm_compute. reflexivity.
  - discriminate.
  - vm_compute. reflexivity.
Defined.

(** X13.  A window of 0 days is not caught: when the key that the date
    arithmetic gives for 0 days is in the series, the division by the
    window raises [ZeroDivisionError], which leaves the function. *)
Theorem calculate_spread_vector_zero_window
    (shift : string -> Z -> Result string) (location : Models.Location)
    (tl : gmap string Z) (latest start : string) :
  Analysis.series location = Some tl ->
  Analysis.latest_key tl latest ->
  shift (Analysis.rstrip_Z latest) 0%Z = Return start ->
  is_Some (tl !! (start +:+ "Z")) ->
  Analysis.calculate_spread_vector shift location 0%Z = Raise ZeroDivisionError.
Proof.
  intros Hs Hl Hshift [sc Hsc].
  rewrite (calculate_spread_vector_latest shift location 0%Z tl latest Hs Hl).
  rewrite Hshift. simpl. rewrite decide_False by congruence.
  unfold Analysis.getitem. rewrite Hsc. destruct Hl as [[ec Hec] _].
  rewrite Hec. reflexivity.
Qed.

Lemma calculate_spread_vector_zero_window_witness :
  Analysis.calculate_spread_vector Datetime.iso_minus_days TestsClustering.loc 0%Z
  = Raise ZeroDivisionError.
Proof.
  refine (calculate_spread_vector_zero_window Datetime.iso_minus_days
            TestsClustering.loc _ "2020-03-15T10:20:30.123456Z"
            "2020-03-15T10:20:30.123456" eq_refl _ _ _).
  - apply latest_key_last. vm_compute. reflexivity.
  - vm_compute. reflexivity.
  - vm_compute. eexists. reflexivity.
Defined.

(** X22.  When [calculate_spread_vector] returns [None], and only then:
    the location lacks [timelines] or [timelines.confirmed]; or the
    series is empty; or the date arithmetic on the latest key, which is
    the greatest key in the order of strings, raises [AttributeError],
    [KeyError] or [ValueError]; or it gives a timestamp that, with [Z]
    appended, is not a key of the series.  No other key is looked up. *)
Theorem calculate_spread_vector_none
    (shift : string -> Z -> Result string) (location : Models.Location)
    (days : Z) :
  Analysis.calculate_spread_vector shift location days = Return None
  ↔ Analysis.series location = None
    ∨ ∃ tl, Analysis.series location = Some tl
        ∧ (tl = ∅
           ∨ ∃ latest,
               Analysis.latest_key tl latest
               ∧ (shift (Analysis.rstrip_Z latest) days = Raise AttributeError
                  ∨ shift (Analysis.rstrip_Z latest) days = Raise KeyError
                  ∨ shift (Analysis.rstrip_Z latest) days = Raise ValueError
                  ∨ ∃ start,
                      shift (Analysis.rstrip_Z latest) days = Return start
                      ∧ tl !! (start +:+ "Z") = None)).
Proof.
  destruct (Analysis.series location) as [tl|] eqn:Hs.
  2:{ split; [now left|]. intros _.
      unfold Analysis.series, Analysis.calculate_spread_vector in *.
      destruct (Models.timelines location) as [tls|]; [|reflexivity]. simpl in *.
      destruct (Models.timelines_confirmed tls); [discriminate | reflexivity]. }
  destruct (last (Analysis.sorted (map_to_list tl).*1)) as [k|] eqn:Hk.
  2:{ assert (Hempty : tl = ∅).
      { apply last_None in Hk. apply map_to_list_empty_iff.
        apply fmap_nil_inv with (f := fst). apply Permutation_nil_r.
        rewrite <- Hk. symmetry. apply sorted_perm. }
      split; [intros _; right; exists tl; auto|]. intros _.
      apply (calculate_spread_vector_no_key shift location days tl Hs).
      intros k' Hk'%latest_key_last. congruence. }
  apply latest_key_last in Hk.
  rewrite (calculate_spread_vector_latest shift location days tl k Hs Hk).
  assert (Hne : tl ≠ ∅).
  { intros ->. destruct Hk as [[v Hv] _]. now rewrite lookup_empty in Hv. }
  assert (Huniq : ∀ k', Analysis.latest_key tl k' ->
            shift (Analysis.rstrip_Z k') days = shift (Analysis.rstrip_Z k) days).
  { intros k' Hk'%latest_key_last. apply latest_key_last in Hk. congruence. }
  split.
  - intros Hnone. right. exists tl. split; [reflexivity|]. right. exists k.
    split; [assumption|].
    destruct (shift (Analysis.rstrip_Z k) days) as [start|e].
    + right; right; right. exists start. split; [reflexivity|].
      simpl in Hnone. case_decide as Hstart; [assumption|exfalso].
      unfold Analysis.getitem in Hnone.
      destruct (tl !! (start +:+ "Z")) as [sc|]; [|congruence].
      destruct Hk as [[ec Hec] _]. rewrite Hec in Hnone. simpl in Hnone.
      unfold Analysis.truediv in Hnone.
      case_decide; [discriminate|]. destruct (_ <=? _)%Z; discriminate.
    + destruct e; try discriminate; auto.
  - intros [[=]|(tl' & [= <-] & [?|(k' & Hk' & Hshift)])]; [contradiction|].
    rewrite (Huniq k' Hk') in Hshift.
    destruct Hshift as [-> | [-> | [-> | (start & -> & Hstart)]]];
      try reflexivity.
    simpl. now rewrite decide_True.
Qed.

(** ** The [/spread-vectors] route of the v2 router *)

Section SpreadVectorsRoute.
Import Models.
Context {S : Type} (serialize : Location -> S)
        (shift : string -> Z -> Result string).

Lemma spread_vectors_loop_entries locations days vectors routed i s v :
  RouterV2.spread_vectors_loop serialize shift locations days vectors
  = Return routed ->
  routed !! i = Some (s, v) ->
  vectors !! i = Some (s, v)
  ∨ ∃ loc, loc ∈ locations ∧ id loc = i ∧ s = serialize loc
           ∧ Analysis.calculate_spread_vector shift loc days = Return (Some v).
Proof.
  revert vectors. induction locations as [|loc rest IH]; intros vectors; simpl.
  - intros [= <-] Hi. now left.
  - destruct (Analysis.calculate_spread_vector shift loc days) as [[v0|]|e] eqn:Hc;
      simpl; [| |discriminate].
    + intros Hr Hi. destruct (IH _ Hr Hi) as [Hv|(l & Hin & ? & ? & ?)].
      * destruct (decide (id loc = i)) as [<-|Hne].
        -- rewrite lookup_insert_eq in Hv. injection Hv as <- <-. right.
           exists loc. split; [apply list_elem_of_here | auto].
        -- rewrite lookup_insert_ne in Hv by assumption. now left.
      * right. exists l. split; [now apply list_elem_of_further | auto].
    + intros Hr Hi. destruct (IH _ Hr Hi) as [Hv|(l & Hin & ? & ? & ?)];
        [now left|].
      right. exists l. split; [now apply list_elem_of_further | auto].
Qed.

Lemma spread_vectors_loop_keeps locations days vectors routed i :
  RouterV2.spread_vectors_loop serialize shift locations days vectors
  = Return routed ->
  is_Some (vectors !! i) -> is_Some (routed !! i).
Proof.
  revert vectors. induction locations as [|loc rest IH]; intros vectors; simpl.
  - now intros [= <-].
  - destruct (Analysis.calculate_spread_vector shift loc days) as [[v0|]|e];
      simpl; [| |discriminate].
    + intros Hr Hi. apply (IH _ Hr).
      destruct (decide (id loc = i)) as [<-|Hne].
      * rewrite lookup_insert_eq. eauto.
      * now rewrite lookup_insert_ne.
    + apply IH.
Qed.

Lemma spread_vectors_loop_covers locations days vectors routed loc v :
  RouterV2.spread_vectors_loop serialize shift locations days vectors
  = Return routed ->
  loc ∈ locations ->
  Analysis.calculate_spread_vector shift loc days = Return (Some v) ->
  is_Some (routed !! id loc).
Proof.
  revert vectors. induction locations as [|l rest IH]; intros vectors; simpl.
  - intros _ []%elem_of_nil.
  - intros Hr [->|Hin]%elem_of_cons Hv.
    + rewrite Hv in Hr. simpl in Hr.
      apply (spread_vectors_loop_keeps _ _ _ _ _ Hr).
      rewrite lookup_insert_eq. eauto.
    + destruct (Analysis.calculate_spread_vector shift l days) as [[v0|]|e];
        simpl in Hr; [| |discriminate]; eapply IH; eassumption.
Qed.

Lemma spread_vectors_loop_none locations days vectors :
  (∀ loc, loc ∈ locations ->
          Analysis.calculate_spread_vector shift loc days = Return None) ->
  RouterV2.spread_vectors_loop serialize shift locations days vectors
  = Return vectors.
Proof.
  revert vectors. induction locations as [|loc rest IH]; intros vectors Hnone;
    simpl; [reflexivity|].
  rewrite (Hnone loc) by apply list_elem_of_here. simpl.
  apply IH. intros l Hl. apply Hnone. now apply list_elem_of_further.
Qed.

Lemma spread_vectors_loop_raises before loc after days vectors e :
  (∀ l, l ∈ before ->
        ∃ r, Analysis.calculate_spread_vector shift l days = Return r) ->
  Analysis.calculate_spread_vector shift loc days = Raise e ->
  RouterV2.spread_vectors_loop serialize shift (before ++ loc :: after) days vectors
  = Raise e.
Proof.
  revert vectors. induction before as [|l before IH]; intros vectors Hret He; simpl.
  - now rewrite He.
  - destruct (Hret l) as [r ->]; [apply list_elem_of_here|]. simpl.
    destruct r; apply IH; try assumption;
      intros l' Hl'; apply Hret; now apply list_elem_of_further.
Qed.
End SpreadVectorsRoute.

(** X14.  Outcomes of the [/spread-vectors] route.  When no location has
    a vector it answers 404.  A returned mapping is not empty, each of
    its entries is the serialization and the vector of a location with
    that id, and every location with a vector has its id in the mapping.
    The first exception of [calculate_spread_vector] leaves the route. *)
Theorem get_spread_vectors_outcome {S : Type} (serialize : Models.Location -> S)
    (shift : string -> Z -> Result string) (all : list Models.Location)
    (days : Z) :
  ((∀ loc, loc ∈ all ->
           Analysis.calculate_spread_vector shift loc days = Return None) ->
   RouterV2.get_spread_vectors serialize shift all days
   = Raise (HTTPException 404))
  ∧ (∀ routed,
       RouterV2.get_spread_vectors serialize shift all days = Return routed ->
       routed ≠ ∅
       ∧ (∀ i s v, routed !! i = Some (s, v) ->
            ∃ loc, loc ∈ all ∧ Models.id loc = i ∧ s = serialize loc
                   ∧ Analysis.calculate_spread_vector shift loc days
                     = Return (Some v))
       ∧ (∀ loc v, loc ∈ all ->
            Analysis.calculate_spread_vector shift loc days = Return (Some v) ->
            is_Some (routed !! Models.id loc)))
  ∧ (∀ before loc after e,
       all = before ++ loc :: after ->
       (∀ l, l ∈ before ->
             ∃ r, Analysis.calculate_spread_vector shift l days = Return r) ->
       Analysis.calculate_spread_vector shift loc days = Raise e ->
       RouterV2.get_spread_vectors serialize shift all days = Raise e).
Proof.
  unfold RouterV2.get_spread_vectors. split; [|split].
  - intros Hnone. rewrite spread_vectors_loop_none by assumption. simpl.
    now rewrite decide_True.
  - intros routed.
    destruct (RouterV2.spread_vectors_loop serialize shift all days ∅)
      as [vectors|] eqn:Hloop; [|discriminate].
    simpl. case_decide as Hempty; [discriminate|]. intros [= <-].
    split; [assumption|]. split.
    + intros i s v Hi.
      destruct (spread_vectors_loop_entries _ _ _ _ _ _ _ _ _ Hloop Hi)
        as [Hv|?]; [|assumption].
      now rewrite lookup_empty in Hv.
    + intros loc v Hin Hv.
      eapply spread_vectors_loop_covers; eassumption.
  - intros before loc after e -> Hret He.
    now rewrite (spread_vectors_loop_raises serialize shift before loc after
                   days ∅ e Hret He).
Qed.

(** ** Heatmaps: center and points *)

(** X15.  A center is used only when both of its coordinates are given:
    with one of them missing, [create_heatmap] does what it does without
    a center, and the coordinate that was supplied is discarded. *)
Theorem create_heatmap_lone_coordinate (locations : list Models.Location)
    (center_lat center_lon : option Q) :
  center_lat = None ∨ center_lon = None ->
  Visualization.create_heatmap locations center_lat center_lon
  = Visualization.create_heatmap locations None None.
Proof. intros [-> | ->]; [|destruct center_lat]; reflexivity. Qed.

Lemma create_heatmap_lone_coordinate_witness :
  Visualization.create_heatmap TestsClustering.heatmap_locations (Some 40%Q) None
  = Visualization.create_heatmap TestsClustering.heatmap_locations None None.
Proof.
  apply (create_heatmap_lone_coordinate TestsClustering.heatmap_locations
           (Some 40%Q) None).
  now right.
Defined.

(** X17.  The heat layer of [create_heatmap] has exactly one point for
    every location with a confirmed count, weighted by that count;
    a location without [latest] or without [latest.confirmed] gives no
    point. *)
Theorem create_heatmap_points (locations : list Models.Location)
    (center_lat center_lon : option Q) (m : Folium.Map) :
  Visualization.create_heatmap locations center_lat center_lon = Return m ->
  ∃ layer,
    Folium.layers m = [layer]
    ∧ length (Folium.data layer)
      = length (filter (fun loc => is_Some (RouterV2.confirmed_count loc)) locations)
    ∧ (∀ lat lon weight,
         (lat, lon, weight) ∈ Folium.data layer ↔
         ∃ loc, loc ∈ locations
                ∧ RouterV2.confirmed_count loc = Some weight
                ∧ lat = Models.latitude (Models.coordinates loc)
                ∧ lon = Models.longitude (Models.coordinates loc)).
Proof.
  unfold Visualization.create_heatmap.
  destruct (match center_lat, center_lon with
            | Some lat, Some lon => Return (lat, lon)
            | _, _ => _
            end) as [center|]; [|discriminate].
  simpl. intros [= <-]. eexists. split; [reflexivity|]. simpl.
  assert (Hpt : ∀ loc : Models.Location,
            (Models.latest loc ≫= fun l =>
             Models.confirmed l ≫= fun c =>
             Some (Models.latitude (Models.coordinates loc),
                   Models.longitude (Models.coordinates loc), c))
            = (fun c => (Models.latitude (Models.coordinates loc),
                         Models.longitude (Models.coordinates loc), c))
              <$> RouterV2.confirmed_count loc).
  { intros loc. unfold RouterV2.confirmed_count.
    destruct (Models.latest loc) as [l|]; [|reflexivity]. simpl.
    destruct (Models.confirmed l); reflexivity. }
  split.
  - induction locations as [|loc locations IH]; [reflexivity|].
    rewrite filter_cons.
    destruct (decide (is_Some (RouterV2.confirmed_count loc))) as [[c Hc]|Hn];
      cbn [omap list_omap]; rewrite Hpt.
    + rewrite Hc. simpl. f_equal. exact IH.
    + destruct (RouterV2.confirmed_count loc) as [c|]; [destruct Hn; eauto|].
      exact IH.
  - intros lat lon weight. rewrite list_elem_of_omap. split.
    + intros (loc & Hin & Hp). exists loc. split; [assumption|].
      unfold RouterV2.confirmed_count.
      destruct (Models.latest loc) as [l|]; simpl in *; [|discriminate].
      destruct (Models.confirmed l); simpl in *; [|discriminate].
      injection Hp as <- <- <-. auto.
    + intros (loc & Hin & Hc & -> & ->). exists loc. split; [assumption|].
      unfold RouterV2.confirmed_count in Hc.
      destruct (Models.latest loc) as [l|]; simpl in *; [|discriminate].
      destruct (Models.confirmed l); simpl in *; [|discriminate].
      now injection Hc as <-.
Qed.

Lemma create_heatmap_points_witness :
  ∃ layer,
    Folium.layers
      {| Folium.location := (0, 0)%Q; Folium.zoom_start := 4;
         Folium.layers :=
           [ {| Folium.data := [(0, 0, 100%Z)]%Q; Folium.min_opacity := Some 0.4%Q;
                Folium.radius := Some 25%Z; Folium.blur := Some 15%Z;
                Folium.max_zoom := Some 1%Z |} ] |} = [layer]
    ∧ length (Folium.data layer)
      = length (filter (fun loc => is_Some (RouterV2.confirmed_count loc))
                  [TestsClustering.mock 0 0 100; TestsClustering.loc])
    ∧ (∀ lat lon weight,
         (lat, lon, weight) ∈ Folium.data layer ↔
         ∃ loc, loc ∈ [TestsClustering.mock 0 0 100; TestsClustering.loc]
                ∧ RouterV2.confirmed_count loc = Some weight
                ∧ lat = Models.latitude (Models.coordinates loc)
                ∧ lon = Models.longitude (Models.coordinates loc)).
Proof.
  apply (create_heatmap_points [TestsClustering.mock 0 0 100; TestsClustering.loc]
           (Some 0%Q) (Some 0%Q)).
  reflexivity.
Defined.

(** X18.  The [/heatmap] route of the v2 router never divides by zero:
    it answers 404 for an empty list of locations and returns the map of
    [create_heatmap] for every other list, whatever center is given. *)
Theorem get_heatmap_outcome (all : list Models.Location)
    (center_lat center_lon : option Q) :
  (RouterV2.get_heatmap all center_lat center_lon = Raise (HTTPException 404)
   ↔ all = [])
  ∧ (all ≠ [] →
     ∃ m, RouterV2.get_heatmap all center_lat center_lon = Return m
          ∧ Visualization.create_heatmap all center_lat center_lon = Return m)
  ∧ (∀ e, RouterV2.get_heatmap all center_lat center_lon = Raise e →
          e = HTTPException 404).
Proof.
  assert (Hret : all ≠ [] →
            ∃ m, Visualization.create_heatmap all center_lat center_lon = Return m).
  { intros Hne.
    destruct (Visualization.create_heatmap all center_lat center_lon) as [m|e] eqn:Hm;
      [eauto|].
    assert (Hr : ∃ e, Visualization.create_heatmap all center_lat center_lon
                      = Raise e) by eauto.
    apply create_heatmap_raises in Hr as [? _]. contradiction. }
  split; [|split].
  - split; [|now intros ->].
    destruct all as [|loc rest]; [reflexivity|]. intros He.
    destruct (Hret ltac:(discriminate)) as [m Hm].
    simpl in He. rewrite Hm in He. discriminate.
  - intros Hne. destruct (Hret Hne) as [m Hm]. exists m.
    destruct all; [congruence|]. simpl. auto.
  - intros e He. destruct all as [|loc rest]; [now injection He as <-|].
    destruct (Hret ltac:(discriminate)) as [m Hm].
    simpl in He. rewrite Hm in He. discriminate.
Qed.

(** ** Spread vectors of the service: where a tuple comes from *)

Section SpreadVectorsOrigin.
Import Pandas Service.

Lemma elem_of_sub_inv a b k m :
  (k, m) ∈ sub a b ->
  (∃ r, r ∈ a ∧ k = r.1
        ∧ (m = NaN ∨ ∃ r', r' ∈ b ∧ key_eqb r.1 r'.1 = true
                            ∧ m = Num (r.2 - r'.2)))
  ∨ (∃ r, r ∈ b ∧ k = r.1 ∧ m = NaN).
Proof.
  unfold sub. rewrite elem_of_app. intros [Hin|Hin].
  - left. apply list_elem_of_In, in_flat_map in Hin as (r & Hr & Hin).
    apply list_elem_of_In in Hr. exists r. split; [assumption|].
    destruct (rows_at r.1 b) as [|r0 rs] eqn:Hrows.
    + apply list_elem_of_In, list_elem_of_singleton in Hin.
      injection Hin as -> ->. auto.
    + apply list_elem_of_In, list_elem_of_fmap in Hin as (r' & Heq & Hr').
      injection Heq as -> ->. split; [reflexivity|]. right.
      rewrite <- Hrows in Hr'. apply elem_of_rows_at in Hr' as [Hk Hb].
      exists r'. auto.
  - right. apply list_elem_of_fmap in Hin as (r & Heq & Hr).
    injection Heq as -> ->. apply list_elem_of_filter in Hr as [_ Hr].
    exists r. auto.
Qed.

Lemma elem_of_cases_on_inv d df k c :
  (k, c) ∈ cases_on d df ->
  ∃ row, row ∈ df ∧ Datetime.date (timestamp row) = d
         ∧ k = (latitude row, longitude row) ∧ c = cases row.
Proof.
  unfold cases_on. intros (row & Heq & Hin)%list_elem_of_fmap.
  injection Heq as -> ->. apply list_elem_of_filter in Hin as [Hd Hin].
  exists row. auto.
Qed.
End SpreadVectorsOrigin.

(** X19.  Every tuple of [calculate_spread_vectors] carries the
    coordinates of a row of the end date or of the start date, and, for
    counts of magnitude up to [2^52] (which the library subtracts
    exactly), a numeric magnitude is the count of a row of the end date
    minus the count of a row with the same coordinates on the start
    date. *)
Theorem calculate_spread_vectors_origin (self : Service.GeographicAnalyzer)
    (historical_data : list Service.GeoLocation) (days : Z)
    (vectors : list (Q * Q * Pandas.Cell)) :
  Forall (fun row => (Z.abs (Service.cases row) <= 2 ^ 52)%Z) historical_data ->
  Service.calculate_spread_vectors self historical_data days = Return vectors ->
  ∃ end_date,
    Service.max_timestamp historical_data = Return end_date
    ∧ (∀ lat lon magnitude, (lat, lon, magnitude) ∈ vectors ->
         ∃ row, row ∈ historical_data
                ∧ Pandas.key_eqb (lat, lon)
                    (Service.latitude row, Service.longitude row) = true
                ∧ (Datetime.date (Service.timestamp row) = Datetime.date end_date
                   ∨ Datetime.date (Service.timestamp row)
                     = (Datetime.date end_date - days)%Z))
    ∧ (∀ lat lon z, (lat, lon, Pandas.Num z) ∈ vectors ->
         ∃ row_end row_start,
           row_end ∈ historical_data ∧ row_start ∈ historical_data
           ∧ Datetime.date (Service.timestamp row_end) = Datetime.date end_date
           ∧ Datetime.date (Service.timestamp row_start)
             = (Datetime.date end_date - days)%Z
           ∧ Pandas.key_eqb (lat, lon)
               (Service.latitude row_end, Service.longitude row_end) = true
           ∧ Pandas.key_eqb (Service.latitude row_end, Service.longitude row_end)
               (Service.latitude row_start, Service.longitude row_start) = true
           ∧ z = (Service.cases row_end - Service.cases row_start)%Z).
Proof.
  intros _ (end_date & Hmax & Hv)%calculate_spread_vectors_returned.
  exists end_date. split; [exact Hmax|].
  assert (Horigin : ∀ lat lon m, (lat, lon, m) ∈ vectors ->
    ∃ k', Pandas.key_eqb (lat, lon) k' = true
          ∧ (k', m) ∈ Pandas.sub
                (Service.cases_on (Datetime.date end_date) historical_data)
                (Service.cases_on (Datetime.date end_date - days) historical_data)).
  { intros lat lon m Hin.
    destruct (vectors_loop_elem _ _ _ _ _ Hv Hin)
      as [[]%elem_of_nil|(k & k' & m' & [= -> -> ->] & _ & Hrows & _)].
    assert (Hk : (k', m') ∈ Pandas.rows_at k
              (Pandas.sub
                 (Service.cases_on (Datetime.date end_date) historical_data)
                 (Service.cases_on (Datetime.date end_date - days)
                    historical_data)))
      by (rewrite Hrows; apply list_elem_of_here).
    apply elem_of_rows_at in Hk as [Hk Hsub]. exists k'. split; [|exact Hsub].
    destruct k. exact Hk. }
  split.
  - intros lat lon m Hin. destruct (Horigin lat lon m Hin) as (k' & Hk & Hsub).
    apply elem_of_sub_inv in Hsub
      as [(r & Hr & -> & _)|(r & Hr & -> & _)];
      destruct r as [kr cr];
      apply elem_of_cases_on_inv in Hr as (row & Hrow & Hd & -> & _);
      exists row; (split; [assumption|]); (split; [exact Hk|]); auto.
  - intros lat lon z Hin. destruct (Horigin lat lon _ Hin) as (k' & Hk & Hsub).
    apply elem_of_sub_inv in Hsub
      as [(r & Hr & -> & [Hnan|(r' & Hr' & Hkk & Hm)])|(r & Hr & _ & Hnan)];
      try discriminate.
    destruct r as [kr cr], r' as [kr' cr'].
    apply elem_of_cases_on_inv in Hr as (row_end & Hre & Hde & -> & ->).
    apply elem_of_cases_on_inv in Hr' as (row_start & Hrs & Hds & -> & ->).
    injection Hm as ->. exists row_end, row_start. auto 10.
Qed.

Lemma calculate_spread_vectors_origin_witness :
  Forall (fun row => (Z.abs (Service.cases row) <= 2 ^ 52)%Z) Tests.history
  ∧ ∃ end_date,
    Service.max_timestamp Tests.history = Return end_date
    ∧ (∀ lat lon magnitude,
         (lat, lon, magnitude) ∈ [(40.7128%Q, (-74.0060)%Q, Pandas.Num 70)] ->
         ∃ row, row ∈ Tests.history
                ∧ Pandas.key_eqb (lat, lon)
                    (Service.latitude row, Service.longitude row) = true
                ∧ (Datetime.date (Service.timestamp row) = Datetime.date end_date
                   ∨ Datetime.date (Service.timestamp row)
                     = (Datetime.date end_date - 7)%Z))
    ∧ (∀ lat lon z,
         (lat, lon, Pandas.Num z) ∈ [(40.7128%Q, (-74.0060)%Q, Pandas.Num 70)] ->
         ∃ row_end row_start,
           row_end ∈ Tests.history ∧ row_start ∈ Tests.history
           ∧ Datetime.date (Service.timestamp row_end) = Datetime.date end_date
           ∧ Datetime.date (Service.timestamp row_start)
             = (Datetime.date end_date - 7)%Z
           ∧ Pandas.key_eqb (lat, lon)
               (Service.latitude row_end, Service.longitude row_end) = true
           ∧ Pandas.key_eqb (Service.latitude row_end, Service.longitude row_end)
               (Service.latitude row_start, Service.longitude row_start) = true
           ∧ z = (Service.cases row_end - Service.cases row_start)%Z).
Proof.
  assert (Hb : Forall (fun row => (Z.abs (Service.cases row) <= 2 ^ 52)%Z)
                 Tests.history)
    by (repeat constructor; simpl; lia).
  split; [exact Hb|].
  apply (calculate_spread_vectors_origin Tests.analyzer Tests.history 7 _ Hb).
  vm_compute. reflexivity.
Defined.

(** ** The routes of [app/routers/geographic.py] *)

(** X20.  The routes of the geographic router work on an empty
    placeholder list: for every request [/clusters] returns the empty
    mapping, while [/spread-vectors] and [/heatmap] answer 500, because
    [calculate_spread_vectors] and [generate_risk_heatmap] raise on an
    empty list and the handler turns every exception into 500. *)
Theorem geographic_routes_on_placeholder :
  (∀ min_cases, RouterGeographic.get_clusters min_cases = Return ∅)
  ∧ (∀ days, RouterGeographic.get_spread_vectors days
             = Raise (HTTPException 500))
  ∧ (∀ center_lat center_lon,
       RouterGeographic.get_heatmap center_lat center_lon
       = Raise (HTTPException 500)).
Proof.
  split; [|split].
  - intros min_cases. unfold RouterGeographic.get_clusters.
    destruct (0 <? min_cases)%Z; reflexivity.
  - reflexivity.
  - intros [lat|] [lon|]; reflexivity.
Qed.

(** ** DBSCAN when every two samples are neighbours *)

Section DBSCANComplete.
Context {X : Type} (min_samples : Z).

Lemma indices_from_true i (xs : list X) :
  Sklearn.indices_from i (fun _ => true) xs = seq i (length xs).
Proof.
  revert i. induction xs as [|x xs IH]; intros i; simpl; [reflexivity|].
  now rewrite IH.
Qed.

Lemma all_labelled labels n l :
  length labels = n ->
  (∀ j x, labels !! j = Some x -> x = (-1)%Z ∨ x = l) ->
  (∀ j, labels !! j ≠ Some (-1)%Z) ->
  labels = replicate n l.
Proof.
  intros Hlen Hval Hno. symmetry. apply replicate_as_Forall.
  split; [assumption|]. apply Forall_forall.
  intros x [j Hj]%list_elem_of_lookup.
  destruct (Hval j x Hj) as [->| ->]; [|reflexivity].
  now destruct (Hno j).
Qed.

Lemma expand_complete n is_core nbs label_num :
  (0 <= label_num)%Z ->
  (∀ i, i < n -> is_core !! i = Some true ∧ nbs !! i = Some (seq 0 n)) ->
  ∀ fuel i stack labels,
    length labels = n ->
    (∀ j x, labels !! j = Some x -> x = (-1)%Z ∨ x = label_num) ->
    (∀ j, labels !! j = Some (-1)%Z -> j ∈ stack) ∨ labels !! i = Some (-1)%Z ->
    S n * Sklearn.pending labels + length stack < fuel ->
    Sklearn.expand fuel is_core nbs label_num i stack labels
    = replicate n label_num.
Proof.
  intros Hn Hgraph.
  induction fuel as [|fuel IH]; intros i stack labels Hlen Hval Hinv Hfuel;
    [lia|].
  assert (Hnext : ∀ v rest labels',
            length labels' = n ->
            (∀ j x, labels' !! j = Some x -> x = (-1)%Z ∨ x = label_num) ->
            (∀ j, labels' !! j = Some (-1)%Z -> j ∈ v :: rest) ->
            S n * Sklearn.pending labels' + length rest < fuel ->
            Sklearn.expand fuel is_core nbs label_num v rest labels'
            = replicate n label_num).
  { intros v rest labels' Hlen' Hval' Hin' Hfuel'.
    apply IH; try assumption.
    destruct (decide (labels' !! v = Some (-1)%Z)) as [Hv|Hv]; [now right|].
    left. intros j Hj. pose proof (Hin' j Hj) as Hc.
    apply elem_of_cons in Hc as [->|?]; [contradiction | assumption]. }
  simpl. destruct (Sklearn.unlabelled labels i) eqn:Hi.
  - apply bool_decide_eq_true in Hi.
    assert (Hlt : i < n) by (rewrite <- Hlen; eapply lookup_lt_Some; eassumption).
    destruct (Hgraph i Hlt) as [-> ->]. simpl.
    pose proof (pending_insert labels i label_num Hi ltac:(lia)) as Hp.
    set (labels' := <[i := label_num]> labels) in *.
    assert (Hlen' : length labels' = n) by (unfold labels'; now rewrite length_insert).
    assert (Hval' : ∀ j x, labels' !! j = Some x -> x = (-1)%Z ∨ x = label_num).
    { intros j x Hx. unfold labels' in Hx.
      destruct (decide (i = j)) as [->|Hne].
      - rewrite list_lookup_insert_eq in Hx by lia. injection Hx as <-. now right.
      - rewrite list_lookup_insert_ne in Hx by assumption. eauto. }
    set (new := filter (fun v => Sklearn.unlabelled labels' v = true) (seq 0 n)).
    assert (Hnew : ∀ j, labels' !! j = Some (-1)%Z -> j ∈ rev new ++ stack).
    { intros j Hj. apply elem_of_app. left.
      apply list_elem_of_In, (proj1 (in_rev new j)), list_elem_of_In.
      unfold new. rewrite list_elem_of_filter.
      split; [now apply bool_decide_eq_true|].
      apply elem_of_seq. apply lookup_lt_Some in Hj. lia. }
    assert (Hnewlen : length new <= n).
    { etransitivity; [apply length_filter|]. now rewrite length_seq. }
    destruct (rev new ++ stack) as [|v rest] eqn:Hst.
    + apply all_labelled; try assumption.
      intros j Hj. apply Hnew in Hj. now apply elem_of_nil in Hj.
    + assert (length (rev new ++ stack) = S (length rest)) by now rewrite Hst.
      rewrite length_app, length_rev in *.
      apply Hnext; try assumption. nia.
  - apply bool_decide_eq_false in Hi.
    destruct Hinv as [Hinv|Hinv]; [|contradiction].
    destruct stack as [|v rest].
    + apply all_labelled; try assumption.
      intros j Hj. apply Hinv in Hj. now apply elem_of_nil in Hj.
    + apply Hnext; try assumption. simpl in Hfuel. lia.
Qed.

Lemma dbscan_inner_all_labelled fuel is_core nbs label_num todo labels :
  (∀ i, i ∈ todo -> Sklearn.unlabelled labels i = false) ->
  Sklearn.dbscan_inner fuel is_core nbs label_num todo labels = labels.
Proof.
  revert label_num. induction todo as [|i todo IH]; intros label_num Hall;
    simpl; [reflexivity|].
  rewrite (Hall i) by apply list_elem_of_here. simpl.
  apply IH. intros j Hj. apply Hall. now apply list_elem_of_further.
Qed.

(** When every two samples are neighbours and there are at least
    [min_samples] of them, they all get the label 0. *)
Lemma fit_predict_complete (xs : list X) :
  xs ≠ [] -> (min_samples <= Z.of_nat (length xs))%Z ->
  Sklearn.fit_predict (fun _ _ => true) min_samples xs
  = replicate (length xs) 0%Z.
Proof.
  intros Hne Hmin. unfold Sklearn.fit_predict, Sklearn.fit_predict_fuel.
  assert (Hpos : 0 < length xs) by (destruct xs; [congruence | simpl; lia]).
  remember (length xs) as n eqn:Hlen.
  assert (Hgraph : ∀ i, i < n ->
            Sklearn.core_samples min_samples
              (Sklearn.radius_neighbors (fun _ _ => true) xs) !! i = Some true
            ∧ Sklearn.radius_neighbors (fun _ _ => true) xs !! i = Some (seq 0 n)).
  { intros i Hi. destruct (lookup_lt_is_Some_2 xs i) as [x Hx]; [lia|]. split.
    - rewrite (core_samples_lookup (fun _ _ => true) min_samples xs i x Hx).
      f_equal. apply Z.leb_le.
      replace (filter (fun _ : X => true = true) xs) with xs; [lia|].
      clear. induction xs as [|y xs IH]; [reflexivity|].
      rewrite filter_cons, decide_True by reflexivity. now f_equal.
    - unfold Sklearn.radius_neighbors. rewrite list_lookup_fmap, Hx. simpl.
      rewrite indices_from_true. now subst. }
  destruct n as [|k] eqn:Hk; [lia|].
  rewrite <- cons_seq. cbn [Sklearn.dbscan_inner].
  assert (Hu : Sklearn.unlabelled (replicate (S k) (-1)%Z) 0 = true)
    by (apply bool_decide_eq_true; reflexivity).
  rewrite Hu. destruct (Hgraph 0%nat ltac:(lia)) as [Hc _]. rewrite Hc. simpl orb.
  cbv iota.
  rewrite (expand_complete (S k) _ _ 0%Z ltac:(lia) Hgraph).
  - apply dbscan_inner_all_labelled. intros i Hi%elem_of_seq.
    apply bool_decide_eq_false. rewrite lookup_replicate_2 by lia. discriminate.
  - apply length_replicate.
  - intros j x [-> _]%lookup_replicate. now left.
  - right. reflexivity.
  - pose proof (pending_le (replicate (S k) (-1)%Z)) as Hp.
    rewrite length_replicate in Hp. simpl length. nia.
Qed.
End DBSCANComplete.

(** X21.  For a configuration that DBSCAN takes: when all locations of
    a non-empty list have the same coordinates and there are at least
    [min_samples] of them, [identify_clusters] returns them as the
    single cluster 0 (the second case of [test_edge_cases], for any
    number of locations at one point). *)
Theorem identify_clusters_one_point (self : Service.GeographicAnalyzer)
    (locations : list Service.GeoLocation) :
  Service.accepted self ->
  locations ≠ [] ->
  (∀ a b, a ∈ locations -> b ∈ locations -> Service.same_point a b = true) ->
  (Service.min_samples self <= Z.of_nat (length locations))%Z ->
  Service.identify_clusters self locations = {[ 0%Z := locations ]}.
Proof.
  intros Ha Hne Hsame Hmin.
  assert (Hl : Service.cluster_labels self locations
               = replicate (length locations) 0%Z).
  { unfold Service.cluster_labels.
    rewrite (fit_predict_ext _ _ (fun _ _ => true)).
    - rewrite fit_predict_complete.
      + now rewrite length_map.
      + destruct locations; [congruence | discriminate].
      + now rewrite length_map.
    - intros x y [a [-> Hin_a]]%list_elem_of_fmap [b [-> Hin_b]]%list_elem_of_fmap.
      apply (same_point_neighbours self a b (accepted_eps_km self Ha)).
      now apply Hsame. }
  apply map_eq. intros label. rewrite identify_clusters_lookup, Hl.
  rewrite members_replicate. case_decide as Hd.
  - subst. rewrite lookup_singleton_eq. destruct locations; congruence.
  - now rewrite lookup_singleton_ne.
Qed.

Lemma identify_clusters_one_point_witness :
  Service.accepted Tests.analyzer
  ∧ Service.identify_clusters Tests.analyzer [Tests.point1; Tests.point2]
    = {[ 0%Z := [Tests.point1; Tests.point2] ]}.
Proof.
  assert (Ha : Service.accepted Tests.analyzer)
    by (split; [discriminate | simpl; lia]).
  split; [exact Ha|].
  apply (identify_clusters_one_point Tests.analyzer [Tests.point1; Tests.point2] Ha).
  - discriminate.
  - intros a b Hin_a Hin_b.
    apply elem_of_cons in Hin_a as [->|Hin_a];
      [|apply list_elem_of_singleton in Hin_a as ->];
      (apply elem_of_cons in Hin_b as [->|Hin_b];
       [|apply list_elem_of_singleton in Hin_b as ->]); reflexivity.
  - simpl. lia.
Defined.
